(** * Atlassian admin-console export: pagination, join and serialization

    A shallow embedding of [login.py] (the export script) and of the
    API-based [setup.py] (the companion setup script), with the properties
    of the pagination loops, of the user/group join performed by
    [save_to_json], of the two output files and of the top-level error
    handling.

    Python values decoded from JSON are the type [json]; Python exceptions
    are values of [exn], carried by the [result] monad for the pure part and
    by the [M] monad (a scripted browser driver with a trace) for the
    effectful part. *)

From stdpp Require Import gmap strings list.
From Stdlib Require Import ZArith.

Set Warnings "-register-all".
Open Scope string_scope.
Open Scope list_scope.

(** ** Python values *)

(** What [json.loads] (and the browser driver) hand to the scripts: [None],
    booleans, integers, strings, lists and dicts. A dict is the list of its
    items in insertion order; a key bound twice in the list stands for its
    first binding. JSON numbers with a fractional part are outside the
    model. *)
Inductive json : Type :=
| JNull
| JBool (b : bool)
| JInt (z : Z)
| JStr (s : string)
| JArr (items : list json)
| JObj (fields : list (string * json)).

(** The exceptions the scripts can meet. [DriverError] is what the browser
    driver raises (navigation failure, timeout, undecodable body, ...). *)
Inductive exn : Type :=
| AttributeError
| TypeError
| KeyError
| IndexError
| DriverError (msg : string).

Inductive result (A : Type) : Type :=
| Ok (a : A)
| Raise (e : exn).
Arguments Ok {A} a.
Arguments Raise {A} e.

#[global] Instance result_ret : MRet result := @Ok.
#[global] Instance result_bind : MBind result :=
  λ A B f r, match r with Ok a => f a | Raise e => Raise e end.

(** A [for] loop threading an accumulator through a body with effects. *)
Fixpoint foldlM {F : Type → Type} `{!MBind F, !MRet F} {A B : Type}
    (f : A → B → F A) (a : A) (l : list B) : F A :=
  match l with
  | [] => mret a
  | x :: l' => a' ← f a x; foldlM f a' l'
  end.

#[global] Instance exn_eq_dec : EqDecision exn.
Proof. solve_decision. Defined.

(** [bool(v)]: Python truth value. *)
Definition truthy (v : json) : bool :=
  match v with
  | JNull => false
  | JBool b => b
  | JInt z => negb (z =? 0)%Z
  | JStr s => negb (String.eqb s "")
  | JArr items => match items with [] => false | _ => true end
  | JObj fields => match fields with [] => false | _ => true end
  end.

Fixpoint dict_get (k : string) (d : list (string * json)) : option json :=
  match d with
  | [] => None
  | (k', v) :: d' => if String.eqb k' k then Some v else dict_get k d'
  end.

Fixpoint dict_set (k : string) (v : json) (d : list (string * json))
  : list (string * json) :=
  match d with
  | [] => [(k, v)]
  | (k', v') :: d' =>
      if String.eqb k' k then (k, v) :: d' else (k', v') :: dict_set k v d'
  end.

(** [o.get(k, default)]: only dicts have a [get] method. *)
Definition py_get (o : json) (k : string) (default : json) : result json :=
  match o with
  | JObj d => Ok (from_option id default (dict_get k d))
  | _ => Raise AttributeError
  end.

(** [o[k]] for a string [k]. *)
Definition py_getitem (o : json) (k : string) : result json :=
  match o with
  | JObj d => match dict_get k d with Some v => Ok v | None => Raise KeyError end
  | _ => Raise TypeError
  end.

(** [o[k] = v] for a string [k]. *)
Definition py_setitem (o : json) (k : string) (v : json) : result json :=
  match o with
  | JObj d => Ok (JObj (dict_set k v d))
  | _ => Raise TypeError
  end.

(** [o.k] on an object of the driver, held as the dict of its attributes. *)
Definition py_attr (o : json) (k : string) : result json :=
  match o with
  | JObj d =>
      match dict_get k d with Some v => Ok v | None => Raise AttributeError end
  | _ => Raise AttributeError
  end.

(** [o[0]]. *)
Definition py_first (o : json) : result json :=
  match o with
  | JArr (x :: _) => Ok x
  | JStr (String c _) => Ok (JStr (String c EmptyString))
  | JArr [] | JStr EmptyString => Raise IndexError
  | JObj _ => Raise KeyError
  | _ => Raise TypeError
  end.

(** The argument of [urllib.parse.quote] has to be a string; the percent
    encoding itself is left to the address that holds the string. *)
Definition py_str (v : json) : result string :=
  match v with
  | JStr s => Ok s
  | _ => Raise TypeError
  end.

(** [v == s] for a string [s]. *)
Definition py_eq_str (v : json) (s : string) : bool :=
  match v with
  | JStr s' => String.eqb s' s
  | _ => false
  end.

Fixpoint chars (s : string) : list json :=
  match s with
  | EmptyString => []
  | String c s' => JStr (String c EmptyString) :: chars s'
  end.

(** [iter(v)]: a list yields its items, a dict its keys, a string its
    characters; nothing else is iterable. *)
Definition py_iter (v : json) : result (list json) :=
  match v with
  | JArr items => Ok items
  | JObj d => Ok (JStr <$> remove_dups (d.*1))
  | JStr s => Ok (chars s)
  | _ => Raise TypeError
  end.

(** ** Dictionary keys *)

(** Hashable values up to Python equality: [True == 1] and [False == 0]. *)
Inductive pykey : Type :=
| KNone
| KInt (z : Z)
| KStr (s : string).

#[global] Instance pykey_eq_dec : EqDecision pykey.
Proof. solve_decision. Defined.

#[global] Instance pykey_countable : Countable pykey.
Proof.
  refine (inj_countable'
    (λ k, match k with
          | KNone => inl ()
          | KInt z => inr (inl z)
          | KStr s => inr (inr s)
          end)
    (λ x, match x with
          | inl _ => KNone
          | inr (inl z) => KInt z
          | inr (inr s) => KStr s
          end) _).
  by intros [].
Defined.

(** [hash(v)]: lists and dicts are unhashable. *)
Definition hash_key (v : json) : result pykey :=
  match v with
  | JNull => Ok KNone
  | JBool b => Ok (KInt (if b then 1 else 0)%Z)
  | JInt z => Ok (KInt z)
  | JStr s => Ok (KStr s)
  | JArr _ | JObj _ => Raise TypeError
  end.

#[global] Instance result_pykey_eq_dec : EqDecision (result pykey).
Proof. solve_decision. Defined.

(** ** The browser driver *)

(** The addresses the scripts request. An f-string with interpolated
    values is a constructor holding those values; [Link] is an address used
    as the server gave it. *)
Inductive url : Type :=
| Link (address : json)
| GroupMembersUrl (group_id : json) (count start_index : Z)
| GroupsUrl (count start_index : Z)
| GroupsCollection
| UsersInvite
| UserSearch (quoted_email : string)
| GroupMembersCollection (group_id : json).

(** The three JavaScript snippets [setup.py] evaluates in the page: each
    POSTs a JSON payload with the CSRF token as header. *)
Inductive js : Type :=
| PostReturningJson
| PostReturningStatus
| PostReturningSuccess.

(** One awaited call on the driver. *)
Inductive call : Type :=
| PlaywrightStart
| PlaywrightStop
| Launch (headless : bool)
| NewPage
| BrowserClose
| Goto (address : string)
| WaitForSelector (selector : string)
| Fill (selector : string) (setting : string)
| Click (selector : string)
| WaitForTimeout (ms : Z)
| Cookies
| RequestGet (u : url)
| ResponseJson
| Evaluate (snippet : js) (u : url) (payload : json) (csrf_token : json).

(** A value interpolated in a printed f-string. *)
Inductive arg : Type :=
| AVal (v : json)
| AExn (e : exn).

(** What a run does to the outside world, in order. *)
Inductive event : Type :=
| Call (c : call)
| Print (template : string) (args : list arg)
| Write (file : string) (content : json).

(** What the driver does at an awaited call: it returns a value (a decoded
    body, a list of cookies, the attributes of a response, [None]) or
    raises. *)
Inductive reply : Type :=
| Returns (v : json)
| Throws (e : exn).

(** The outside world of a run: the replies the driver will give to the
    awaited calls still to come, and the events so far. *)
Record world : Type := World { script : list reply; trace : list event }.

Inductive outcome (A : Type) : Type :=
| Returned (a : A)
| Raised (e : exn)
| Pending
| OutOfFuel.
Arguments Returned {A} a.
Arguments Raised {A} e.
Arguments Pending {A}.
Arguments OutOfFuel {A}.

(** A piece of script: it returns, raises, awaits a reply that never
    comes ([Pending]) or is cut short by the model's loop bound
    ([OutOfFuel]). *)
Definition M (A : Type) : Type := world → outcome A * world.

#[global] Instance M_ret : MRet M := λ A a w, (Returned a, w).
#[global] Instance M_bind : MBind M := λ A B f m w,
  match m w with
  | (Returned a, w') => f a w'
  | (Raised e, w') => (Raised e, w')
  | (Pending, w') => (Pending, w')
  | (OutOfFuel, w') => (OutOfFuel, w')
  end.

Definition log (ev : event) (w : world) : world :=
  World (script w) (trace w ++ [ev]).

Definition await (c : call) : M json := λ w,
  match script w with
  | [] => (Pending, log (Call c) w)
  | Returns v :: s => (Returned v, World s (trace w ++ [Call c]))
  | Throws e :: s => (Raised e, World s (trace w ++ [Call c]))
  end.

Definition print (template : string) (args : list arg) : M unit :=
  λ w, (Returned (), log (Print template args) w).

(** [with open(file, "w") as f: json.dump(content, f, indent=4)]. Failures
    of the file system and of the console are outside the model: neither
    [write_file] nor [print] raises here, so the model says nothing of a run
    in which [open], [json.dump] or [print] fails. *)
Definition write_file (file : string) (content : json) : M unit :=
  λ w, (Returned (), log (Write file content) w).

Definition lift {A : Type} (r : result A) : M A :=
  λ w, (match r with Ok a => Returned a | Raise e => Raised e end, w).

Definition out_of_fuel {A : Type} : M A := λ w, (OutOfFuel, w).

(** [try: body / except Exception as e: handler e]. *)
Definition try_except {A : Type} (body : M A) (handler : exn → M A) : M A :=
  λ w, match body w with
       | (Raised e, w') => handler e w'
       | r => r
       end.

(** [try: body / finally: final]. *)
Definition try_finally {A : Type} (body : M A) (final : M unit) : M A :=
  λ w, match body w with
       | (Returned a, w') => (final;; mret a) w'
       | (Raised e, w') => (final;; lift (Raise e)) w'
       | r => r
       end.

Definition len (l : list json) : arg := AVal (JInt (Z.of_nat (length l))).

(** * [login.py]: the export script *)

Module Login.

Definition ORG_ID : string := "e487b234-1e3a-4c58-b4b2-1343fcb828b8".

Definition login : M unit :=
  print "Navigating to login page..." [];;
  await (Goto "https://admin.atlassian.com");;
  await (WaitForSelector "input[name=username]");;
  await (Fill "input[name=username]" "ATLASSIAN_EMAIL");;
  await (Click "button[id=login-submit]");;
  await (WaitForSelector "input[name=password]");;
  await (Fill "input[name=password]" "ATLASSIAN_PASSWORD");;
  await (Click "button[id=login-submit]");;
  print "Login successful! Waiting for dashboard to load..." [];;
  await (WaitForSelector "span:has-text(sample overview)");;
  print "Successfully logged in." [].

(** The first value of [next_url]. *)
Definition users_url : json :=
  JStr ("https://admin.atlassian.com/gateway/api/admin/v2/orgs/" +:+ ORG_ID
        +:+ "/directories/-/users?limit=100").

(** The [while next_url:] loop of [fetch_users]; [fuel] bounds the number
    of times the loop condition is tested. *)
Fixpoint fetch_users_loop (fuel : nat) (next_url : json)
    (all_users : list json) : M (list json) :=
  match fuel with
  | O => out_of_fuel
  | S fuel' =>
      if truthy next_url then
        print "Fetching from: {next_url}" [AVal next_url];;
        api_response ← await (RequestGet (Link next_url));
        data ← await ResponseJson;
        users ← lift (py_get data "data" (JArr []) ≫= py_iter);
        links ← lift (py_get data "links" (JObj []));
        next_url ← lift (py_get links "next" JNull);
        fetch_users_loop fuel' next_url (all_users ++ users)
      else mret all_users
  end.

Definition fetch_users (fuel : nat) : M (list json) :=
  print "Fetching all users..." [];;
  all_users ← fetch_users_loop fuel users_url [];
  print "Total users fetched: {len(all_users)}" [len all_users];;
  mret all_users.

(** The [while True:] loop of [fetch_group_members]; [count] is 50. *)
Fixpoint fetch_group_members_loop (fuel : nat) (group_id : json)
    (start_index : Z) (all_members : list json) : M (list json) :=
  match fuel with
  | O => out_of_fuel
  | S fuel' =>
      response ← await (RequestGet (GroupMembersUrl group_id 50 start_index));
      data ← await ResponseJson;
      members_on_page ← lift (py_get data "users" (JArr []));
      if negb (truthy members_on_page) then mret all_members
      else
        members ← lift (py_iter members_on_page);
        fetch_group_members_loop fuel' group_id (start_index + 50)
          (all_members ++ members)
  end.

Definition fetch_group_members (fuel : nat) (group_id : json)
  : M (list json) :=
  fetch_group_members_loop fuel group_id 1 [].

(** The body of [for group in groups_on_page:]; the group it returns is
    the group with its [members] key set. *)
Definition attach_members (fuel : nat) (group : json) : M json :=
  name ← lift (py_getitem group "name");
  print "---> Fetching members for group: {group['name']}" [AVal name];;
  group_id ← lift (py_getitem group "id");
  members ← fetch_group_members fuel group_id;
  lift (py_setitem group "members" (JArr members)).

(** The [while True:] loop of [fetch_groups]; [count] is 20. [fuel] bounds
    this loop, [inner] each member loop. *)
Fixpoint fetch_groups_loop (fuel inner : nat) (start_index : Z)
    (all_groups : list json) : M (list json) :=
  match fuel with
  | O => out_of_fuel
  | S fuel' =>
      print "Fetching groups list from: {url}"
        [AVal (JInt 20); AVal (JInt start_index)];;
      api_response ← await (RequestGet (GroupsUrl 20 start_index));
      data ← await ResponseJson;
      groups_on_page ← lift (py_get data "groups" (JArr []));
      if negb (truthy groups_on_page) then mret all_groups
      else
        groups ← lift (py_iter groups_on_page);
        groups ← mapM (attach_members inner) groups;
        fetch_groups_loop fuel' inner (start_index + 20) (all_groups ++ groups)
  end.

Definition fetch_groups (fuel : nat) : M (list json) :=
  print "Fetching all groups..." [];;
  all_groups ← fetch_groups_loop fuel fuel 1 [];
  print "Total groups fetched: {len(all_groups)}" [len all_groups];;
  mret all_groups.

(** *** The join of [save_to_json] *)

(** [user_to_groups_map]: user id to the list of group names. *)
Abbreviation index := (gmap pykey (list json)).

(** Step 1, one user of the dict comprehension
    [{user.get("accountId"): [] for user in users_data if user.get("accountId")}]. *)
Definition add_user (m : index) (user : json) : result index :=
  account_id ← py_get user "accountId" JNull;
  if truthy account_id then
    k ← hash_key account_id;
    mret (<[k := []]> m)
  else mret m.

Definition init_index (users_data : list json) : result index :=
  foldlM add_user ∅ users_data.

(** [member.get('id')], as a dictionary key. *)
Definition member_key (member : json) : result pykey :=
  member_id ← py_get member "id" JNull;
  hash_key member_id.

(** [group.get('members', [])], iterated. *)
Definition group_members (group : json) : result (list json) :=
  members ← py_get group "members" (JArr []);
  py_iter members.

(** Step 2, the body of the inner loop. *)
Definition link_member (group_name : json) (m : index) (member : json)
  : result index :=
  k ← member_key member;
  match m !! k with
  | Some names => mret (<[k := names ++ [group_name]]> m)
  | None => mret m
  end.

(** Step 2, the body of the outer loop. *)
Definition link_group (m : index) (group : json) : result index :=
  group_name ← py_get group "name" JNull;
  members ← group_members group;
  foldlM (link_member group_name) m members.

Definition link_groups (m : index) (groups_data : list json) : result index :=
  foldlM link_group m groups_data.

(** Step 3, one record of [users_output]. *)
Definition user_record (m : index) (user : json) : result json :=
  account_id ← py_get user "accountId" JNull;
  name ← py_get user "name" JNull;
  email ← py_get user "email" JNull;
  last_active ← py_get user "last_active_date" JNull;
  status ← py_get user "status" JNull;
  k ← hash_key account_id;
  mret (JObj [("id", account_id); ("name", name); ("email", email);
              ("last_active", last_active); ("status", status);
              ("groups", JArr (default [] (m !! k)))]).

(** Step 4, one record of [groups_output]. *)
Definition group_record (group : json) : result json :=
  group_id ← py_get group "id" JNull;
  name ← py_get group "name" JNull;
  description ← py_get group "description" JNull;
  members ← group_members group;
  names ← mapM (λ member, py_get member "displayName" JNull) members;
  mret (JObj [("id", group_id); ("name", name);
              ("description", description); ("members", JArr names)]).

Definition save_to_json (users_data groups_data : list json) : M unit :=
  print "Finalizing and saving data with readable names..." [];;
  user_to_groups_map ← lift (init_index users_data);
  user_to_groups_map ← lift (link_groups user_to_groups_map groups_data);
  users_output ← lift (mapM (user_record user_to_groups_map) users_data);
  write_file "users.json" (JArr users_output);;
  print "Saved users.json" [];;
  groups_output ← lift (mapM group_record groups_data);
  write_file "groups.json" (JArr groups_output);;
  print "Saved groups.json" [].

(** The [try] block of [main]. *)
Definition run (fuel : nat) : M unit :=
  login;;
  users ← fetch_users fuel;
  groups ← fetch_groups fuel;
  save_to_json users groups;;
  print "Script finished successfully!" [].

Definition main (fuel : nat) : M unit :=
  p ← await PlaywrightStart;
  try_finally
    (browser ← await (Launch true);
     page ← await NewPage;
     try_finally
       (try_except (run fuel)
          (λ e, print "An error occurred: {e}" [AExn e]))
       (await BrowserClose;; mret ()))
    (await PlaywrightStop;; mret ()).

End Login.

(** * [setup.py]: the API-based setup script *)

Module Setup.

Definition GROUPS_TO_CREATE : list json :=
  [JObj [("name", JStr "DevOps Team");
         ("description", JStr "Group for DevOps engineers.")];
   JObj [("name", JStr "QA-Testers");
         ("description", JStr "Group for the Quality Assurance team.")]].

Definition USERS_TO_INVITE : list json :=
  [JObj [("email", JStr "devops-final@example.com");
         ("group_name", JStr "DevOps Team")];
   JObj [("email", JStr "qa-final@example.com");
         ("group_name", JStr "QA-Testers")]].

Definition login : M unit :=
  print "Navigating to login page..." [];;
  await (Goto "https://admin.atlassian.com");;
  await (WaitForSelector "input[name=username]");;
  await (Fill "input[name=username]" "ATLASSIAN_EMAIL");;
  await (Click "button[id=login-submit]");;
  await (WaitForSelector "input[name=password]");;
  await (Fill "input[name=password]" "ATLASSIAN_PASSWORD");;
  await (Click "button[id=login-submit]");;
  print "Login successful! Waiting for dashboard to load..." [];;
  await (WaitForSelector "span:has-text(sample overview)");;
  print "Successfully logged in." [].

Definition correct_cookie_name : string := "atlassian.account.xsrf.token".

(** The [for cookie in cookies:] loop of [get_csrf_token] and the two
    statements after it. *)
Fixpoint find_token (cookies : list json) : M json :=
  match cookies with
  | [] =>
      print "ERROR: Could not find the required cookie: '{correct_cookie_name}'."
        [AVal (JStr correct_cookie_name)];;
      mret JNull
  | cookie :: cookies' =>
      name ← lift (py_getitem cookie "name");
      if py_eq_str name correct_cookie_name then
        token ← lift (py_getitem cookie "value");
        print "Found CSRF Token: {token}" [AVal token];;
        mret token
      else find_token cookies'
  end.

Definition get_csrf_token : M json :=
  await (WaitForTimeout 2000);;
  cookies ← await Cookies;
  cookies ← lift (py_iter cookies);
  find_token cookies.

Definition create_group (name description csrf_token : json) : M json :=
  print "Attempting to create group: '{name}'..." [AVal name];;
  result ← await (Evaluate PostReturningJson GroupsCollection
                    (JObj [("name", name); ("description", description)])
                    csrf_token);
  error ← lift (py_get result "error" JNull);
  if truthy error then
    status ← lift (py_getitem result "status");
    text ← lift (py_getitem result "text");
    print "  -> ERROR: Failed to create group '{name}'. Status: {result['status']}, Response: {result['text']}"
      [AVal name; AVal status; AVal text];;
    mret JNull
  else
    group_id ← lift (py_get result "id" JNull);
    print "  -> SUCCESS: Created group '{name}' with ID: {group_id}"
      [AVal name; AVal group_id];;
    mret group_id.

Definition invite_user (email csrf_token : json) : M json :=
  print "Attempting to invite user: '{email}'..." [AVal email];;
  invite_result ← await (Evaluate PostReturningStatus UsersInvite
                           (JObj [("emails", JArr [email])]) csrf_token);
  ok ← lift (py_get invite_result "ok" JNull);
  if negb (truthy ok) then
    status ← lift (py_getitem invite_result "status");
    text ← lift (py_getitem invite_result "text");
    print "  -> ERROR: Failed to send invite for '{email}'. Status: {invite_result['status']}, Response: {invite_result['text']}"
      [AVal email; AVal status; AVal text];;
    mret JNull
  else
    print "  -> SUCCESS: Invite sent for '{email}'. Now finding user's accountId..."
      [AVal email];;
    await (WaitForTimeout 3000);;
    encoded_email ← lift (py_str email);
    search_response ← await (RequestGet (UserSearch encoded_email));
    ok ← lift (py_attr search_response "ok");
    if negb (truthy ok) then
      status ← lift (py_attr search_response "status");
      print "  -> ERROR: Could not search for user '{email}' after inviting. Status: {search_response.status}"
        [AVal email; AVal status];;
      mret JNull
    else
      search_data ← await ResponseJson;
      users_found ← lift (py_get search_data "data" (JArr []));
      if negb (truthy users_found) then
        print "  -> ERROR: User '{email}' not found after invite. They may need to accept the invitation first."
          [AVal email];;
        mret JNull
      else
        user ← lift (py_first users_found);
        user_id ← lift (py_get user "account_id" JNull);
        print "  -> SUCCESS: Found Account ID: {user_id}" [AVal user_id];;
        mret user_id.

Definition add_user_to_group (group_id user_id csrf_token : json) : M bool :=
  print "Attempting to add user {user_id} to group {group_id}..."
    [AVal user_id; AVal group_id];;
  result ← await (Evaluate PostReturningSuccess
                    (GroupMembersCollection group_id)
                    (JObj [("accountIds", JArr [user_id])]) csrf_token);
  success ← lift (py_get result "success" JNull);
  if truthy success then
    print "  -> SUCCESS: User added to group." [];;
    mret true
  else
    status ← lift (py_getitem result "status");
    text ← lift (py_getitem result "text");
    print "  -> ERROR: Failed to add user to group. Status: {result['status']}, Response: {result['text']}"
      [AVal status; AVal text];;
    mret false.

(** The body of [for group in GROUPS_TO_CREATE:]. *)
Definition create_one (csrf_token : json) (group_id_map : gmap pykey json)
    (group : json) : M (gmap pykey json) :=
  name ← lift (py_getitem group "name");
  description ← lift (py_getitem group "description");
  group_id ← create_group name description csrf_token;
  if truthy group_id then
    name ← lift (py_getitem group "name");
    k ← lift (hash_key name);
    mret (<[k := group_id]> group_id_map)
  else mret group_id_map.

(** The body of [for user_info in USERS_TO_INVITE:]. *)
Definition invite_one (csrf_token : json) (group_id_map : gmap pykey json)
    (_ : unit) (user_info : json) : M unit :=
  email ← lift (py_getitem user_info "email");
  user_id ← invite_user email csrf_token;
  if truthy user_id then
    target_group_name ← lift (py_getitem user_info "group_name");
    k ← lift (hash_key target_group_name);
    let target_group_id := default JNull (group_id_map !! k) in
    if truthy target_group_id then
      add_user_to_group target_group_id user_id csrf_token;;
      mret ()
    else
      print "  -> WARNING: Could not find group '{target_group_name}' to assign user to."
        [AVal target_group_name]
  else mret ().

(** What [main] does once it holds a CSRF token. *)
Definition setup (csrf_token : json) : M unit :=
  group_id_map ← foldlM (create_one csrf_token) ∅ GROUPS_TO_CREATE;
  foldlM (invite_one csrf_token group_id_map) () USERS_TO_INVITE;;
  print "Setup script finished successfully!" [].

(** The [try] block of [main]; the early [return] is the first branch. *)
Definition run : M unit :=
  login;;
  csrf_token ← get_csrf_token;
  if negb (truthy csrf_token) then
    print "Aborting script because CSRF token could not be found." []
  else setup csrf_token.

Definition main : M unit :=
  p ← await PlaywrightStart;
  try_finally
    (browser ← await (Launch false);
     page ← await NewPage;
     try_finally
       (try_except run
          (λ e, print "A critical error occurred: {e}" [AExn e]))
       (await BrowserClose;; mret ()))
    (await PlaywrightStop;; mret ()).

End Setup.

(** * Vocabulary of the statements *)

Import Login.

(** The key under which step 1 enters [user] in the index: the key of its
    [accountId] when that is truthy, none otherwise. *)
Definition account_key (user : json) : option pykey :=
  match py_get user "accountId" JNull with
  | Ok account_id =>
      if truthy account_id then
        match hash_key account_id with Ok k => Some k | Raise _ => None end
      else None
  | Raise _ => None
  end.

(** [k] is the id of a user of the collection. *)
Definition known (users_data : list json) (k : pykey) : Prop :=
  Exists (λ user, account_key user = Some k) users_data.

(** How many of [members] carry the id [k]. *)
Definition count_key (k : pykey) (members : list json) : nat :=
  length (filter (λ member, member_key member = Ok k) members).

(** The names [group] contributes to the entry of [k]: its name, once per
    member of the group whose id is [k]. *)
Definition occurrences (k : pykey) (group : json) : list json :=
  match py_get group "name" JNull, group_members group with
  | Ok name, Ok members => replicate (count_key k members) name
  | _, _ => []
  end.

(** [group] lists a member whose id is [k]. *)
Definition has_member (group : json) (k : pykey) : Prop :=
  ∃ members member,
    group_members group = Ok members ∧ member ∈ members ∧
    member_key member = Ok k.

(** Steps 1 and 2 of [save_to_json]: the membership index. *)
Definition membership_index (users_data groups_data : list json)
  : result index :=
  user_to_groups_map ← init_index users_data;
  link_groups user_to_groups_map groups_data.

(** Step 3: the content of [users.json]. *)
Definition users_output (users_data groups_data : list json)
  : result (list json) :=
  user_to_groups_map ← membership_index users_data groups_data;
  mapM (user_record user_to_groups_map) users_data.

(** Step 4: the content of [groups.json]. *)
Definition groups_output (groups_data : list json) : result (list json) :=
  mapM group_record groups_data.

(** The keys of a record, in order. *)
Definition fields_of (v : json) : option (list string) :=
  match v with
  | JObj d => Some (d.*1)
  | _ => None
  end.

(** The value of a field of a record. *)
Definition field (k : string) (v : json) : option json :=
  match v with
  | JObj d => dict_get k d
  | _ => None
  end.

(** The groups value step 3 gives [user]: the names its id collects over
    the groups, in the order of the groups; nothing for a user that step 1
    left out of the index. *)
Definition groups_of (groups_data : list json) (user : json) : list json :=
  match account_key user with
  | Some k => groups_data ≫= occurrences k
  | None => []
  end.

(** The value of [o.get(k)] for a record [o]. *)
Definition get_or_none (o : json) (k : string) : json :=
  match py_get o k JNull with
  | Ok v => v
  | Raise _ => JNull
  end.

(** The record of [users.json] the external contract promises for [user]:
    id, name, email, last_active, status and groups, taken from the input
    record's accountId, name, email, last_active_date and status. *)
Definition user_json (groups_data : list json) (user : json) : json :=
  JObj [("id", get_or_none user "accountId");
        ("name", get_or_none user "name");
        ("email", get_or_none user "email");
        ("last_active", get_or_none user "last_active_date");
        ("status", get_or_none user "status");
        ("groups", JArr (groups_of groups_data user))].

(** The display names of the members of [group], in order. *)
Definition display_names (group : json) : list json :=
  match group_members group with
  | Ok members => (λ member, get_or_none member "displayName") <$> members
  | Raise _ => []
  end.

(** The record of [groups.json] the external contract promises for
    [group]: id, name, description and members by display name. *)
Definition group_json (group : json) : json :=
  JObj [("id", get_or_none group "id");
        ("name", get_or_none group "name");
        ("description", get_or_none group "description");
        ("members", JArr (display_names group))].

(** The events of a call of [save_to_json] that writes [users_output] and
    [groups_output]. *)
Definition saved (users_output groups_output : list json) : list event :=
  [Print "Finalizing and saving data with readable names..." [];
   Write "users.json" (JArr users_output);
   Print "Saved users.json" [];
   Write "groups.json" (JArr groups_output);
   Print "Saved groups.json" []].

(** The events of a call of [save_to_json] that raises. *)
Definition not_saved : list event :=
  [Print "Finalizing and saving data with readable names..." []].

(** From [w] to [w'] some replies of the script were used up and some
    events, all satisfying [P], were added to the trace. *)
Definition steps (P : event → Prop) (w w' : world) : Prop :=
  (∃ used, script w = used ++ script w') ∧
  (∃ evs, trace w' = trace w ++ evs ∧ Forall P evs).

(** Whatever its outcome, [m] only uses up replies and only adds events
    that satisfy [P]. *)
Definition emits {A : Type} (P : event → Prop) (m : M A) : Prop :=
  ∀ w, steps P w (m w).2.

(** ** Pages of the three collections *)

(** The replies to the two awaited calls that fetch one page: the response
    object, then its decoded body. *)
Definition served (pages : list (json * json)) : list reply :=
  pages ≫= λ page, [Returns page.1; Returns page.2].

(** [data.get(key, [])], iterated. *)
Definition page_items (key : string) (data : json) : result (list json) :=
  py_get data key (JArr []) ≫= py_iter.

(** The records a page holds under [key]; none if the page is
    malformed. *)
Definition records (key : string) (data : json) : list json :=
  match page_items key data with
  | Ok items => items
  | Raise _ => []
  end.

(** [data.get("links", {}).get("next", None)]. *)
Definition page_next (data : json) : result json :=
  links ← py_get data "links" (JObj []);
  py_get links "next" JNull.

(** A page of users that can be read and carries a next link. *)
Definition users_page_more (data : json) : Prop :=
  ∃ users next,
    page_items "data" data = Ok users ∧ page_next data = Ok next ∧
    truthy next = true.

(** A page of users that can be read and carries no next link. *)
Definition users_page_last (data : json) : Prop :=
  ∃ users next,
    page_items "data" data = Ok users ∧ page_next data = Ok next ∧
    truthy next = false.

(** A page of an offset-paginated collection with a non-empty body under
    [key]. *)
Definition page_full (key : string) (data : json) : Prop :=
  ∃ body items,
    py_get data key (JArr []) = Ok body ∧ truthy body = true ∧
    py_iter body = Ok items.

(** A page whose body under [key] is empty or absent. *)
Definition page_empty (key : string) (data : json) : Prop :=
  ∃ body, py_get data key (JArr []) = Ok body ∧ truthy body = false.

(** The pages that answer one call of [fetch_group_members]: non-empty
    pages, then an empty one. *)
Definition members_dialogue (pages : list (json * json)) : Prop :=
  ∃ full last,
    pages = full ++ [last] ∧ Forall (page_full "users") full.*2 ∧
    page_empty "users" last.2.

(** One page of groups with what follows it: the response, the body, and
    for each group of the page the pages of its members. *)
Record groups_page : Type := GroupsPage {
  page_response : json;
  page_body : json;
  member_pages : list (list (json * json))
}.

Definition groups_page_script (p : groups_page) : list reply :=
  [Returns (page_response p); Returns (page_body p)] ++
  (member_pages p ≫= served).

(** [group] with its [members] key set to [members]. *)
Definition with_members (group : json) (members : list json) : json :=
  match py_setitem group "members" (JArr members) with
  | Ok group' => group'
  | Raise _ => group
  end.

(** The groups of a page, each with the members its pages hold. *)
Definition attached (p : groups_page) : list json :=
  zip_with (λ group pages, with_members group (pages.*2 ≫= records "users"))
    (records "groups" (page_body p)) (member_pages p).

(** A page of groups that can be read, each of its groups with a name, an
    id and a complete dialogue for its members. *)
Definition groups_page_ok (p : groups_page) : Prop :=
  page_full "groups" (page_body p) ∧
  Forall2 (λ group pages,
             is_Some (field "name" group) ∧ is_Some (field "id" group) ∧
             members_dialogue pages)
    (records "groups" (page_body p)) (member_pages p).

(** The addresses requested, in order. *)
Definition requested (evs : list event) : list url :=
  omap (λ ev, match ev with Call (RequestGet u) => Some u | _ => None end) evs.

(** The [count] and [start-index] of the requests for the group list, in
    order. *)
Definition group_list_requests (evs : list event) : list (Z * Z) :=
  omap (λ ev, match ev with
              | Call (RequestGet (GroupsUrl count start_index)) =>
                  Some (count, start_index)
              | _ => None
              end) evs.

(** The events of [k] iterations of the member loop of [group_id] from
    [start_index] on. *)
Fixpoint member_requests (group_id : json) (start_index : Z) (k : nat)
  : list event :=
  match k with
  | O => []
  | S k' =>
      [Call (RequestGet (GroupMembersUrl group_id 50 start_index));
       Call ResponseJson] ++
      member_requests group_id (start_index + 50) k'
  end.

(** Any event but a request for the group list. *)
Definition not_group_list_request (ev : event) : Prop :=
  group_list_requests [ev] = [].

(** ** Sample replies *)

Module Sample.

Definition user (account_id name : string) : json :=
  JObj [("accountId", JStr account_id); ("name", JStr name);
        ("email", JStr (name +:+ "@example.com"));
        ("last_active_date", JStr "2024-05-01"); ("status", JStr "active")].

Definition alice : json := user "u1" "alice".
Definition bob : json := user "u2" "bob".
Definition carol : json := user "u3" "carol".

Definition users_page1 : json :=
  JObj [("data", JArr [alice; bob]);
        ("links", JObj [("next", JStr "https://admin.atlassian.com/next")])].

Definition users_page2 : json :=
  JObj [("data", JArr [carol]); ("links", JObj [])].

Definition member (id display_name : string) : json :=
  JObj [("id", JStr id); ("displayName", JStr display_name)].

Definition members_page (members : list json) : json :=
  JObj [("users", JArr members)].

Definition group (id name : string) : json :=
  JObj [("id", JStr id); ("name", JStr name);
        ("description", JStr "a group")].

Definition admins : json := group "g1" "Admins".
Definition staff : json := group "g2" "Staff".

(** One page with two groups: [Admins] has one page of members, [Staff]
    has none. *)
Definition groups_page1 : groups_page :=
  GroupsPage JNull (JObj [("groups", JArr [admins; staff])])
    [[(JNull, members_page [member "u1" "Alice"; member "u9" "Zed"]);
      (JNull, members_page [])];
     [(JNull, JObj [])]].

(** A response object of the driver; the export script never reads it. *)
Definition response : json := JObj [("ok", JBool true); ("status", JInt 200)].

End Sample.

(** ** Sample records *)

Module Cases.

(** [Admins] with its members as [fetch_groups] attaches them: Alice, who
    is a user of the collection, and Zed, who is not. *)
Definition admins : json :=
  with_members Sample.admins
    [Sample.member "u1" "Alice"; Sample.member "u9" "Zed"].

(** A group that lists Alice twice. *)
Definition doubled : json :=
  with_members Sample.staff
    [Sample.member "u1" "Alice"; Sample.member "u1" "Alice"].

(** A user record without an [accountId]. *)
Definition anonymous : json := JObj [("name", JStr "nobody")].

(** A user record whose [accountId] is an empty list. *)
Definition odd : json := JObj [("accountId", JArr []); ("name", JStr "odd")].

End Cases.

(** ** The top level of the export script *)




(** Any event but the writing of a file. *)
Definition not_a_write (ev : event) : Prop :=
  match ev with Write _ _ => False | _ => True end.

(** Any event but a request to the server. *)
Definition not_a_request (ev : event) : Prop :=
  match ev with Call (RequestGet _) => False | _ => True end.

(** The events [m] adds fall in two phases: first events that satisfy [P],
    then events that satisfy [Q]. *)
Definition phased {A : Type} (P Q : event → Prop) (m : M A) : Prop :=
  ∀ w, ∃ evs1 evs2,
    trace (m w).2 = trace w ++ evs1 ++ evs2 ∧ Forall P evs1 ∧ Forall Q evs2.

(** * The [result] monad *)

Lemma bind_Ok {A B : Type} (r : result A) (f : A → result B) (b : B) :
  r ≫= f = Ok b ↔ ∃ a, r = Ok a ∧ f a = Ok b.
Proof.
  destruct r as [a|e]; simpl; split.
  - eauto.
  - by intros (a' & [= <-] & ?).
  - done.
  - by intros (? & ? & ?).
Qed.

Lemma bind_Raise {A B : Type} (r : result A) (f : A → result B) (e : exn) :
  r ≫= f = Raise e ↔ r = Raise e ∨ ∃ a, r = Ok a ∧ f a = Raise e.
Proof.
  destruct r as [a|e']; simpl; split.
  - eauto.
  - intros [?|(a' & [= <-] & ?)]; done.
  - intros [= ->]. by left.
  - intros [?|(? & ? & ?)]; congruence.
Qed.

Section result_loops.
Context {A B : Type}.

Lemma foldlM_app (f : A → B → result A) (a : A) (l1 l2 : list B) :
  foldlM f a (l1 ++ l2) = (a' ← foldlM f a l1; foldlM f a' l2).
Proof.
  revert a. induction l1 as [|x l1 IH]; intros a; simpl; [done|].
  destruct (f a x) as [a'|e]; simpl; [apply IH | done].
Qed.

Lemma mapM_Ok_Forall2 (f : A → result B) (l : list A) (k : list B) :
  mapM f l = Ok k ↔ Forall2 (λ x y, f x = Ok y) l k.
Proof.
  revert k. induction l as [|x l IH]; intros k; simpl.
  - split; [intros [= <-]; constructor | by inversion 1].
  - split.
    + intros (y & Hy & (k' & Hk' & [= <-])%bind_Ok)%bind_Ok.
      constructor; [done | by apply IH].
    + inversion 1 as [|? y ? k' Hy Hk']; subst.
      apply bind_Ok. exists y. split; [done|].
      apply bind_Ok. exists k'. split; [by apply IH | done].
Qed.
End result_loops.

(** Destructs the hypotheses of the form [r ≫= f = Ok b]. *)
Ltac inv_ok :=
repeat match goal with
  | H : _ ≫= _ = Ok _ |- _ => apply bind_Ok in H as (? & ? & H)
  | H : mret _ = Ok _ |- _ => injection H as H
  | H : Ok _ = Ok _ |- _ => injection H as H
  | H : Raise _ = Ok _ |- _ => discriminate H
  end.

(** * The membership index *)

Lemma add_user_lookup (m m' : index) (user : json) (k : pykey) :
  add_user m user = Ok m' →
  m' !! k = if decide (account_key user = Some k) then Some [] else m !! k.
Proof.
  unfold add_user, account_key. intros H.
  destruct (py_get user "accountId" JNull) as [account_id|]; [|done].
  simpl in H. destruct (truthy account_id); inv_ok.
  - destruct (hash_key account_id) as [k'|]; [|done]. simplify_eq.
    case_decide; simplify_eq.
    + by rewrite lookup_insert_eq.
    + rewrite lookup_insert_ne; [done | congruence].
  - subst. by case_decide.
Qed.

Lemma add_users_lookup (users_data : list json) (m m' : index) (k : pykey) :
  foldlM add_user m users_data = Ok m' →
  m' !! k = if decide (known users_data k) then Some [] else m !! k.
Proof.
  unfold known. revert m.
  induction users_data as [|user users_data IH]; intros m H; simpl in H.
  - inv_ok. subst. case_decide as Hk; [by inversion Hk | done].
  - inv_ok. rewrite (IH _ H).
    erewrite (add_user_lookup m) by done.
    repeat case_decide; try done; exfalso; rewrite Exists_cons in *; tauto.
Qed.

Lemma link_member_lookup (name : json) (m m' : index) (member : json)
    (k : pykey) :
  link_member name m member = Ok m' →
  m' !! k =
    (λ names, if decide (member_key member = Ok k)
              then names ++ [name] else names) <$> m !! k.
Proof.
  unfold link_member. intros H. inv_ok.
  rename x into k'. destruct (m !! k') as [names|] eqn:Hk'; inv_ok; subst.
  - case_decide as Hk.
    + rewrite H0 in Hk. injection Hk as ->.
      by rewrite lookup_insert_eq, Hk'.
    + rewrite lookup_insert_ne by congruence. by destruct (m !! k).
  - case_decide as Hk.
    + rewrite H0 in Hk. injection Hk as ->. by rewrite Hk'.
    + by destruct (_ !! k).
Qed.

Lemma count_key_cons (k : pykey) (member : json) (members : list json) :
  count_key k (member :: members) =
    if decide (member_key member = Ok k)
    then S (count_key k members) else count_key k members.
Proof. unfold count_key. rewrite filter_cons. by case_decide. Qed.

Lemma count_key_pos (k : pykey) (members : list json) :
  count_key k members ≠ 0%nat ↔
  ∃ member, member ∈ members ∧ member_key member = Ok k.
Proof.
  unfold count_key. rewrite length_zero_iff_nil. split.
  - intros H.
    destruct (filter _ members) as [|member l] eqn:Hf; [done|].
    assert (member ∈ filter (λ member, member_key member = Ok k) members)
      as Hm by (rewrite Hf; left).
    apply list_elem_of_filter in Hm as [? ?]. by exists member.
  - intros (member & Hin & Hk) Hnil.
    assert (member ∈ filter (λ member, member_key member = Ok k) members)
      as Hm by (by apply list_elem_of_filter).
    rewrite Hnil in Hm. by apply not_elem_of_nil in Hm.
Qed.

Lemma link_members_lookup (name : json) (members : list json) (m m' : index)
    (k : pykey) :
  foldlM (link_member name) m members = Ok m' →
  m' !! k = (λ names, names ++ replicate (count_key k members) name) <$> m !! k.
Proof.
  revert m. induction members as [|member members IH]; intros m H; simpl in H.
  - inv_ok. subst. destruct (m' !! k); simpl; [|done].
    by rewrite app_nil_r.
  - inv_ok. rewrite (IH _ H), (link_member_lookup name m _ member) by done.
    rewrite count_key_cons. destruct (m !! k) as [names|]; simpl; [|done].
    case_decide; simpl; [|done]. by rewrite <-app_assoc.
Qed.

Lemma link_group_lookup (group : json) (m m' : index) (k : pykey) :
  link_group m group = Ok m' →
  m' !! k = (λ names, names ++ occurrences k group) <$> m !! k.
Proof.
  unfold link_group, occurrences. intros H. inv_ok.
  rewrite (link_members_lookup _ _ _ _ _ H).
  by destruct (py_get group "name" JNull), (group_members group);
    simplify_eq.
Qed.

Lemma link_groups_lookup (groups_data : list json) (m m' : index)
    (k : pykey) :
  link_groups m groups_data = Ok m' →
  m' !! k = (λ names, names ++ (groups_data ≫= occurrences k)) <$> m !! k.
Proof.
  unfold link_groups. revert m.
  induction groups_data as [|group groups_data IH]; intros m H; simpl in H.
  - inv_ok. subst. destruct (m' !! k); simpl; [|done].
    by rewrite app_nil_r.
  - inv_ok. rewrite (IH _ H), (link_group_lookup group m) by done.
    simpl.
    destruct (m !! k) as [names|]; simpl; [|done].
    by rewrite <-app_assoc.
Qed.

(** The index, entry by entry: a known id is bound to the names its groups
    contribute, in the order of the groups; no other id is bound. *)
Lemma membership_index_lookup (users_data groups_data : list json)
    (m : index) (k : pykey) :
  membership_index users_data groups_data = Ok m →
  m !! k = if decide (known users_data k)
           then Some (groups_data ≫= occurrences k) else None.
Proof.
  unfold membership_index, init_index. intros H. inv_ok.
  rewrite (link_groups_lookup _ _ _ _ H).
  erewrite add_users_lookup by done.
  rewrite lookup_empty. by case_decide.
Qed.

Lemma elem_of_occurrences (name : json) (k : pykey) (group : json) :
  name ∈ occurrences k group ↔
  py_get group "name" JNull = Ok name ∧ has_member group k.
Proof.
  unfold occurrences, has_member.
  destruct (py_get group "name" JNull) as [name'|e].
  - destruct (group_members group) as [members|e].
    + rewrite elem_of_replicate, count_key_pos. split.
      * intros [-> (member & ? & ?)]. split; [done|]. by exists members, member.
      * intros [[= ->] (members' & member & [= <-] & ? & ?)]. eauto.
    + split; [by intros ?%not_elem_of_nil|].
      by intros [_ (? & ? & ? & _)].
  - split; [by intros ?%not_elem_of_nil | by intros [? _]].
Qed.

(** * The [M] monad: what a piece of script leaves behind *)

Lemma steps_refl (P : event → Prop) (w : world) : steps P w w.
Proof.
  split; [by exists [] | exists []]. by rewrite app_nil_r.
Qed.

Lemma steps_trans (P : event → Prop) (w1 w2 w3 : world) :
  steps P w1 w2 → steps P w2 w3 → steps P w1 w3.
Proof.
  intros [[u1 Hu1] (e1 & He1 & HP1)] [[u2 Hu2] (e2 & He2 & HP2)]. split.
  - exists (u1 ++ u2). by rewrite Hu1, Hu2, app_assoc.
  - exists (e1 ++ e2). split; [by rewrite He2, He1, app_assoc|].
    by apply Forall_app.
Qed.

Lemma steps_log (P : event → Prop) (ev : event) (w : world) :
  P ev → steps P w (log ev w).
Proof.
  intros HP. split; [by exists []|].
  exists [ev]. split; [done | by constructor].
Qed.

Lemma steps_length (P : event → Prop) (w w' : world) :
  steps P w w' → (length (script w') ≤ length (script w))%nat.
Proof. intros [[used ->] _]. rewrite length_app. lia. Qed.

Section emits.
Context {A B : Type} (P : event → Prop).

Lemma emits_ret (a : A) : emits P (mret a).
Proof. intros w. apply steps_refl. Qed.

Lemma emits_bind (m : M A) (f : A → M B) :
  emits P m → (∀ a, emits P (f a)) → emits P (m ≫= f).
Proof.
  intros Hm Hf w. specialize (Hm w). unfold mbind, M_bind.
  destruct (m w) as [[a|e| |] w']; simpl in *; [|done..].
  eapply steps_trans; [done | apply Hf].
Qed.

Lemma emits_lift (r : result A) : emits P (lift r).
Proof. intros w. apply steps_refl. Qed.

Lemma emits_out_of_fuel : emits P (@out_of_fuel A).
Proof. intros w. apply steps_refl. Qed.

Lemma emits_try_except (body : M A) (handler : exn → M A) :
  emits P body → (∀ e, emits P (handler e)) → emits P (try_except body handler).
Proof.
  intros Hm Hh w. specialize (Hm w). unfold try_except.
  destruct (body w) as [[a|e| |] w']; simpl in *; try done.
  eapply steps_trans; [done | apply Hh].
Qed.

Lemma emits_if (b : bool) (m1 m2 : M A) :
  emits P m1 → emits P m2 → emits P (if b then m1 else m2).
Proof. by destruct b. Qed.
End emits.

Lemma emits_await (P : event → Prop) (c : call) :
  P (Call c) → emits P (await c).
Proof.
  intros HP w. unfold await.
  destruct w as [[|[v|e] s] t]; simpl.
  - by apply steps_log.
  - split; [by exists [Returns v] | exists [Call c]]. split; [done|].
    by constructor.
  - split; [by exists [Throws e] | exists [Call c]]. split; [done|].
    by constructor.
Qed.

Lemma emits_print (P : event → Prop) (template : string) (args : list arg) :
  P (Print template args) → emits P (print template args).
Proof. intros HP w. by apply steps_log. Qed.

Lemma emits_write_file (P : event → Prop) (file : string) (content : json) :
  P (Write file content) → emits P (write_file file content).
Proof. intros HP w. by apply steps_log. Qed.

Lemma emits_try_finally {A : Type} (P : event → Prop) (body : M A)
    (final : M unit) :
  emits P body → emits P final → emits P (try_finally body final).
Proof.
  intros Hm Hf w. specialize (Hm w). unfold try_finally.
  destruct (body w) as [[a|e| |] w']; simpl in *; try done.
  - eapply steps_trans; [done|].
    apply emits_bind; [done | intros; apply emits_ret].
  - eapply steps_trans; [done|].
    apply emits_bind; [done | intros; apply emits_lift].
Qed.

Lemma emits_mapM {A B : Type} (P : event → Prop) (f : A → M B) (l : list A) :
  (∀ a, emits P (f a)) → emits P (mapM f l).
Proof.
  intros Hf. induction l as [|x l IH]; simpl; [apply emits_ret|].
  apply emits_bind; [done | intros y].
  apply emits_bind; [done | intros k; apply emits_ret].
Qed.

Lemma emits_foldlM {A B : Type} (P : event → Prop) (f : A → B → M A) (a : A)
    (l : list B) :
  (∀ a x, emits P (f a x)) → emits P (foldlM f a l).
Proof.
  intros Hf. revert a. induction l as [|x l IH]; intros a; simpl.
  - apply emits_ret.
  - apply emits_bind; [done | intros a'; apply IH].
Qed.

(** Proves [emits P m] for a script written with the combinators, leaving
    the side conditions [P ev] on the events it logs. *)
Ltac emits_step :=
  first
    [ apply emits_ret
    | apply emits_lift
    | apply emits_out_of_fuel
    | apply emits_await
    | apply emits_print
    | apply emits_write_file
    | apply emits_mapM; intros ?
    | apply emits_foldlM; intros ? ?
    | apply emits_try_finally
    | apply emits_try_except; [|intros ?]
    | apply emits_if
    | apply emits_bind; [|intros ?] ].

Ltac solve_emits := repeat emits_step.

(** Runs a script on a world whose next replies are explicit. *)
Ltac run :=
  simpl;
  unfold mbind, M_bind, mret, M_ret, await, print, write_file, lift, log;
  simpl.

(** * The pagination loops *)

Lemma page_full_records (key : string) (data : json) :
  page_full key data →
  ∃ body, py_get data key (JArr []) = Ok body ∧ truthy body = true ∧
          py_iter body = Ok (records key data).
Proof.
  intros (body & items & Hget & Ht & Hit). exists body.
  unfold records, page_items. rewrite Hget. simpl. by rewrite Hit.
Qed.

Lemma page_empty_records (key : string) (data : json) :
  page_empty key data → records key data = [].
Proof.
  intros (body & Hget & Ht). unfold records, page_items. rewrite Hget. simpl.
  by destruct body as [| | |[|]|[|]|[|]].
Qed.

Lemma served_app (pages1 pages2 : list (json * json)) :
  served (pages1 ++ pages2) = served pages1 ++ served pages2.
Proof. unfold served. apply bind_app. Qed.

Lemma served_cons (response data : json) (pages : list (json * json))
    (rest : list reply) :
  served ((response, data) :: pages) ++ rest =
  Returns response :: Returns data :: served pages ++ rest.
Proof. done. Qed.

Lemma length_served (pages : list (json * json)) :
  length (served pages) = (2 * length pages)%nat.
Proof.
  induction pages as [|page pages IH]; simpl in *; [done|]. lia.
Qed.

(** ** [fetch_group_members] *)

Lemma members_loop_full (fuel : nat) (group_id : json) (start_index : Z)
    (all_members : list json) (response data : json) (s : list reply)
    (t : list event) :
  page_full "users" data →
  fetch_group_members_loop (S fuel) group_id start_index all_members
    (World (Returns response :: Returns data :: s) t) =
  fetch_group_members_loop fuel group_id (start_index + 50)
    (all_members ++ records "users" data)
    (World s (t ++ [Call (RequestGet (GroupMembersUrl group_id 50 start_index));
                    Call ResponseJson])).
Proof.
  intros (body & Hget & Ht & Hit)%page_full_records.
  run. rewrite Hget, Ht. run. rewrite Hit. by rewrite <-app_assoc.
Qed.

Lemma members_loop_empty (fuel : nat) (group_id : json) (start_index : Z)
    (all_members : list json) (response data : json) (s : list reply)
    (t : list event) :
  page_empty "users" data →
  fetch_group_members_loop (S fuel) group_id start_index all_members
    (World (Returns response :: Returns data :: s) t) =
  (Returned all_members,
   World s (t ++ [Call (RequestGet (GroupMembersUrl group_id 50 start_index));
                  Call ResponseJson])).
Proof.
  intros (body & Hget & Ht).
  run. rewrite Hget, Ht. run. by rewrite <-app_assoc.
Qed.

Lemma members_loop_run (full : list (json * json)) (last : json * json)
    (fuel : nat) (group_id : json) (start_index : Z)
    (all_members : list json) (rest : list reply) (t : list event) :
  Forall (page_full "users") full.*2 →
  page_empty "users" last.2 →
  (length full < fuel)%nat →
  fetch_group_members_loop fuel group_id start_index all_members
    (World (served (full ++ [last]) ++ rest) t) =
  (Returned (all_members ++ (full.*2 ≫= records "users")),
   World rest
     (t ++ member_requests group_id start_index (S (length full)))).
Proof.
  revert fuel start_index all_members t.
  induction full as [|[response data] full IH];
    intros fuel start_index all_members t Hfull Hlast Hfuel.
  - destruct fuel as [|fuel]; [simpl in Hfuel; lia|].
    destruct last as [response data]. rewrite app_nil_l, served_cons.
    rewrite members_loop_empty by done.
    by rewrite app_nil_r.
  - destruct fuel as [|fuel]; [simpl in Hfuel; lia|].
    rewrite fmap_cons in Hfull. apply Forall_cons in Hfull as [Hdata Hfull].
    rewrite <-app_comm_cons, served_cons, fmap_cons, bind_cons.
    rewrite members_loop_full by done.
    rewrite IH by (done || simpl in Hfuel; lia).
    by rewrite <-!app_assoc.
Qed.

(** ** [fetch_users] *)

Lemma users_page_records (data : json) (users : list json) :
  page_items "data" data = Ok users → records "data" data = users.
Proof. unfold records. by intros ->. Qed.

Lemma users_loop_stop (fuel : nat) (next_url : json) (all_users : list json)
    (w : world) :
  truthy next_url = false →
  fetch_users_loop (S fuel) next_url all_users w = (Returned all_users, w).
Proof. intros H. simpl. by rewrite H. Qed.

Lemma users_loop_step (fuel : nat) (next_url : json) (all_users : list json)
    (response data : json) (users : list json) (next : json)
    (s : list reply) (t : list event) :
  truthy next_url = true →
  page_items "data" data = Ok users →
  page_next data = Ok next →
  fetch_users_loop (S fuel) next_url all_users
    (World (Returns response :: Returns data :: s) t) =
  fetch_users_loop fuel next (all_users ++ users)
    (World s (t ++ [Print "Fetching from: {next_url}" [AVal next_url];
                    Call (RequestGet (Link next_url)); Call ResponseJson])).
Proof.
  unfold page_items, page_next. intros Hurl Husers Hnext.
  lazy [fetch_users_loop]; fold fetch_users_loop.
  rewrite Hurl. run.
  apply bind_Ok in Husers as (items & Hget & Hiter).
  apply bind_Ok in Hnext as (links & Hlinks & Hnext).
  rewrite Hget. simpl. rewrite Hiter, Hlinks. simpl. rewrite Hnext. simpl.
  by rewrite <-!app_assoc.
Qed.

Lemma users_loop_run (more : list (json * json)) (last : json * json)
    (fuel : nat) (next_url : json) (all_users : list json)
    (rest : list reply) (t : list event) :
  truthy next_url = true →
  Forall users_page_more more.*2 →
  users_page_last last.2 →
  (S (length more) < fuel)%nat →
  ∃ evs,
    fetch_users_loop fuel next_url all_users
      (World (served (more ++ [last]) ++ rest) t) =
    (Returned (all_users ++ ((more ++ [last]).*2 ≫= records "data")),
     World rest (t ++ evs)) ∧
    length (requested evs) = S (length more).
Proof.
  revert fuel next_url all_users t.
  induction more as [|[response data] more IH];
    intros fuel next_url all_users t Hurl Hmore Hlast Hfuel.
  - destruct fuel as [|[|fuel]]; [simpl in Hfuel; lia..|].
    destruct last as [response data], Hlast as (users & next & Hu & Hn & Ht).
    rewrite app_nil_l, served_cons. eexists. simpl in Hu, Hn.
    erewrite users_loop_step by done.
    rewrite users_loop_stop by done.
    simpl. rewrite (users_page_records _ _ Hu), app_nil_r. done.
  - destruct fuel as [|fuel]; [simpl in Hfuel; lia|].
    rewrite fmap_cons in Hmore.
    apply Forall_cons in Hmore as [(users & next & Hu & Hn & Ht) Hmore].
    rewrite <-!app_comm_cons, served_cons, fmap_cons, bind_cons.
    erewrite users_loop_step by done.
    destruct (IH fuel next (all_users ++ users)
                (t ++ [Print "Fetching from: {next_url}" [AVal next_url];
                       Call (RequestGet (Link next_url));
                       Call ResponseJson]))
      as (evs & -> & Hlen); [done| done | done | simpl in Hfuel; lia |].
    eexists. rewrite <-!app_assoc, (users_page_records _ _ Hu).
    split; [done|]. simpl. by rewrite Hlen.
Qed.

(** ** [fetch_groups] *)

Lemma field_getitem (k : string) (group v : json) :
  field k group = Some v → py_getitem group k = Ok v.
Proof. destruct group; simpl; try done. by intros ->. Qed.

Lemma attach_members_run (inner : nat) (group : json)
    (pages : list (json * json)) (rest : list reply) (t : list event) :
  is_Some (field "name" group) →
  is_Some (field "id" group) →
  members_dialogue pages →
  (length pages ≤ inner)%nat →
  ∃ evs,
    attach_members inner group (World (served pages ++ rest) t) =
    (Returned (with_members group (pages.*2 ≫= records "users")),
     World rest (t ++ evs)).
Proof.
  intros [name Hname%field_getitem] [group_id Hid%field_getitem]
    (full & last & -> & Hfull & Hlast) Hlen.
  unfold attach_members, fetch_group_members.
  unfold mbind at 1, M_bind at 1, lift at 1. rewrite Hname.
  unfold mbind at 1, M_bind at 1, print at 1.
  unfold mbind at 1, M_bind at 1, lift at 1. rewrite Hid.
  unfold mbind at 1, M_bind at 1, log. cbn [script trace].
  rewrite members_loop_run; [|done|done|rewrite length_app in Hlen; simpl in Hlen; lia].
  unfold lift, with_members.
  rewrite fmap_app, bind_app. simpl. rewrite (page_empty_records _ _ Hlast).
  rewrite !app_nil_r.
  destruct group; try done. simpl. rewrite <-app_assoc. by eexists.
Qed.

Lemma attach_all_run (inner : nat) (groups : list json)
    (runs : list (list (json * json))) (rest : list reply) (t : list event) :
  Forall2 (λ group pages,
             is_Some (field "name" group) ∧ is_Some (field "id" group) ∧
             members_dialogue pages) groups runs →
  Forall (λ pages, (length pages ≤ inner)%nat) runs →
  ∃ evs,
    mapM (attach_members inner) groups (World ((runs ≫= served) ++ rest) t) =
    (Returned
       (zip_with (λ group pages,
                    with_members group (pages.*2 ≫= records "users"))
          groups runs),
     World rest (t ++ evs)).
Proof.
  intros H. revert t.
  induction H as [|group pages groups runs (Hname & Hid & Hd) _ IH];
    intros t Hlen.
  - exists []. simpl. by rewrite app_nil_r.
  - apply Forall_cons in Hlen as [Hpages Hlen].
    rewrite bind_cons, <-app_assoc.
    destruct (attach_members_run inner group pages ((runs ≫= served) ++ rest)
                t Hname Hid Hd Hpages) as (evs1 & H1).
    destruct (IH (t ++ evs1) Hlen) as (evs2 & H2).
    exists (evs1 ++ evs2). simpl.
    unfold mbind at 1, M_bind at 1. rewrite H1.
    unfold mbind at 1, M_bind at 1. rewrite H2.
    simpl. by rewrite app_assoc.
Qed.

Lemma groups_loop_empty (fuel inner : nat) (start_index : Z)
    (all_groups : list json) (response data : json) (s : list reply)
    (t : list event) :
  page_empty "groups" data →
  ∃ evs,
    fetch_groups_loop (S fuel) inner start_index all_groups
      (World (Returns response :: Returns data :: s) t) =
    (Returned all_groups, World s (t ++ evs)) ∧
    group_list_requests evs = [(20%Z, start_index)].
Proof.
  intros (body & Hget & Ht). eexists.
  run. rewrite Hget, Ht. run. by rewrite <-!app_assoc.
Qed.

Lemma groups_loop_full (fuel inner : nat) (start_index : Z)
    (all_groups : list json) (p : groups_page) (s : list reply)
    (t : list event) :
  groups_page_ok p →
  Forall (λ pages, (length pages ≤ inner)%nat) (member_pages p) →
  ∃ evs,
    fetch_groups_loop (S fuel) inner start_index all_groups
      (World (groups_page_script p ++ s) t) =
    fetch_groups_loop fuel inner (start_index + 20) (all_groups ++ attached p)
      (World s (t ++ evs)).
Proof.
  intros [(body & Hget & Ht & Hit)%page_full_records Hruns] Hlen.
  destruct p as [response data runs]. simpl in *.
  unfold groups_page_script. cbn [page_response page_body member_pages].
  lazy [fetch_groups_loop]; fold fetch_groups_loop.
  unfold mbind at 1, M_bind at 1, print at 1, log.
  unfold mbind at 1, M_bind at 1, await at 1. cbn [script trace app].
  unfold mbind at 1, M_bind at 1, await at 1. cbn [script trace app].
  unfold mbind at 1, M_bind at 1, lift at 1. rewrite Hget.
  rewrite Ht. cbn [negb].
  unfold mbind at 1, M_bind at 1, lift at 1. rewrite Hit.
  unfold mbind at 1, M_bind at 1.
  edestruct (attach_all_run inner (records "groups" data) runs s) as (evs & ->);
    [done..|].
  unfold attached. cbn [page_body member_pages].
  eexists. by rewrite <-!app_assoc.
Qed.

Lemma groups_loop_run (pages : list groups_page) (last : json * json)
    (fuel inner : nat) (start_index : Z) (all_groups : list json)
    (rest : list reply) (t : list event) :
  Forall groups_page_ok pages →
  page_empty "groups" last.2 →
  (length pages < fuel)%nat →
  Forall (λ p, Forall (λ run, (length run ≤ inner)%nat) (member_pages p))
    pages →
  ∃ evs,
    fetch_groups_loop fuel inner start_index all_groups
      (World ((pages ≫= groups_page_script) ++ served [last] ++ rest) t) =
    (Returned (all_groups ++ (pages ≫= attached)), World rest (t ++ evs)).
Proof.
  revert fuel start_index all_groups t.
  induction pages as [|p pages IH];
    intros fuel start_index all_groups t Hpages Hlast Hfuel Hinner.
  - destruct fuel as [|fuel]; [simpl in Hfuel; lia|].
    destruct last as [response data]. rewrite app_nil_l, served_cons.
    destruct (groups_loop_empty fuel inner start_index all_groups response
                data (served [] ++ rest) t Hlast) as (evs & -> & _).
    exists evs. by rewrite app_nil_r.
  - destruct fuel as [|fuel]; [simpl in Hfuel; lia|].
    apply Forall_cons in Hpages as [Hp Hpages].
    apply Forall_cons in Hinner as [Hi Hinner].
    rewrite bind_cons, <-app_assoc.
    edestruct (groups_loop_full fuel inner start_index all_groups p)
      as (evs1 & ->); [done..|].
    edestruct (IH fuel) as (evs2 & ->);
      [done | done | simpl in Hfuel; lia | done |].
    exists (evs1 ++ evs2). by rewrite <-!app_assoc.
Qed.

(** ** Complete runs of the three fetchers *)

Lemma fetch_users_run (more : list (json * json)) (last : json * json)
    (fuel : nat) (rest : list reply) (t : list event) :
  Forall users_page_more more.*2 →
  users_page_last last.2 →
  (S (length more) < fuel)%nat →
  ∃ evs,
    fetch_users fuel (World (served (more ++ [last]) ++ rest) t) =
    (Returned ((more ++ [last]).*2 ≫= records "data"),
     World rest (t ++ evs)) ∧
    length (requested evs) = length (more ++ [last]).
Proof.
  intros Hmore Hlast Hfuel. unfold fetch_users.
  unfold mbind at 1, M_bind at 1, print at 1, log. cbn [script trace].
  unfold mbind at 1, M_bind at 1.
  edestruct (users_loop_run more last fuel users_url [] rest)
    as (evs & -> & Hlen); [done..|].
  run. eexists. rewrite <-!app_assoc. split; [done|].
  rewrite length_app. simpl.
  unfold requested in *. rewrite omap_app, length_app. simpl.
  rewrite Hlen. lia.
Qed.

Lemma fetch_group_members_run (full : list (json * json))
    (last : json * json) (fuel : nat) (group_id : json) (rest : list reply)
    (t : list event) :
  Forall (page_full "users") full.*2 →
  page_empty "users" last.2 →
  (length full < fuel)%nat →
  fetch_group_members fuel group_id
    (World (served (full ++ [last]) ++ rest) t) =
  (Returned (full.*2 ≫= records "users"),
   World rest (t ++ member_requests group_id 1 (S (length full)))).
Proof.
  intros. unfold fetch_group_members. by rewrite members_loop_run.
Qed.

Lemma fetch_groups_run (pages : list groups_page) (last : json * json)
    (fuel : nat) (rest : list reply) (t : list event) :
  Forall groups_page_ok pages →
  page_empty "groups" last.2 →
  (length pages < fuel)%nat →
  Forall (λ p, Forall (λ run, (length run ≤ fuel)%nat) (member_pages p))
    pages →
  ∃ evs,
    fetch_groups fuel
      (World ((pages ≫= groups_page_script) ++ served [last] ++ rest) t) =
    (Returned (pages ≫= attached), World rest (t ++ evs)).
Proof.
  intros Hpages Hlast Hfuel Hinner. unfold fetch_groups.
  unfold mbind at 1, M_bind at 1, print at 1, log. cbn [script trace].
  unfold mbind at 1, M_bind at 1.
  edestruct (groups_loop_run pages last fuel fuel 1 [] rest)
    as (evs & ->); [done..|].
  run. eexists. by rewrite <-!app_assoc.
Qed.

(** ** No loop stops before an end-of-collection page *)

Lemma users_loop_pending (more : list (json * json)) (fuel : nat)
    (next_url : json) (all_users : list json) (t : list event) :
  truthy next_url = true →
  Forall users_page_more more.*2 →
  (length more < fuel)%nat →
  (fetch_users_loop fuel next_url all_users (World (served more) t)).1 =
  Pending.
Proof.
  revert fuel next_url all_users t.
  induction more as [|[response data] more IH];
    intros fuel next_url all_users t Hurl Hmore Hfuel.
  - destruct fuel as [|fuel]; [simpl in Hfuel; lia|].
    lazy [fetch_users_loop]; fold fetch_users_loop. rewrite Hurl. by run.
  - destruct fuel as [|fuel]; [simpl in Hfuel; lia|].
    rewrite fmap_cons in Hmore.
    apply Forall_cons in Hmore as [(users & next & Hu & Hn & Ht) Hmore].
    rewrite <-(app_nil_r (served _)), served_cons, app_nil_r.
    erewrite users_loop_step by done.
    apply IH; [done | done | simpl in Hfuel; lia].
Qed.

Lemma members_loop_pending (full : list (json * json)) (fuel : nat)
    (group_id : json) (start_index : Z) (all_members : list json)
    (t : list event) :
  Forall (page_full "users") full.*2 →
  (length full < fuel)%nat →
  (fetch_group_members_loop fuel group_id start_index all_members
     (World (served full) t)).1 = Pending.
Proof.
  revert fuel start_index all_members t.
  induction full as [|[response data] full IH];
    intros fuel start_index all_members t Hfull Hfuel.
  - destruct fuel as [|fuel]; [simpl in Hfuel; lia|]. by run.
  - destruct fuel as [|fuel]; [simpl in Hfuel; lia|].
    rewrite fmap_cons in Hfull. apply Forall_cons in Hfull as [Hdata Hfull].
    rewrite <-(app_nil_r (served _)), served_cons, app_nil_r.
    rewrite members_loop_full by done.
    apply IH; [done | simpl in Hfuel; lia].
Qed.

(** ** The loops end on every finite script *)

Lemma users_loop_terminates (fuel : nat) (next_url : json)
    (all_users : list json) (w : world) :
  (length (script w) < fuel)%nat →
  (fetch_users_loop fuel next_url all_users w).1 ≠ OutOfFuel.
Proof.
  revert next_url all_users w.
  induction fuel as [|fuel IH]; intros next_url all_users w Hfuel; [lia|].
  lazy [fetch_users_loop]; fold fetch_users_loop.
  destruct (truthy next_url); [|done].
  destruct w as [[|[response|e] [|[data|e'] s]] t]; run; try done.
  destruct (py_get data "data" (JArr [])) as [items|]; simpl; [|done].
  destruct (py_iter items) as [users|]; simpl; [|done].
  destruct (py_get data "links" (JObj [])) as [links|]; simpl; [|done].
  destruct (py_get links "next" JNull) as [next|]; simpl; [|done].
  apply IH. simpl in *. lia.
Qed.

Lemma members_loop_terminates (fuel : nat) (group_id : json)
    (start_index : Z) (all_members : list json) (w : world) :
  (length (script w) < fuel)%nat →
  (fetch_group_members_loop fuel group_id start_index all_members w).1 ≠
  OutOfFuel.
Proof.
  revert start_index all_members w.
  induction fuel as [|fuel IH]; intros start_index all_members w Hfuel; [lia|].
  destruct w as [[|[response|e] [|[data|e'] s]] t]; run; try done.
  destruct (py_get data "users" (JArr [])) as [body|]; simpl; [|done].
  destruct (truthy body); simpl; [|done].
  destruct (py_iter body) as [members|]; simpl; [|done].
  apply IH. simpl in *. lia.
Qed.

Lemma members_loop_emits (P : event → Prop) (fuel : nat) (group_id : json)
    (start_index : Z) (all_members : list json) :
  (∀ i, P (Call (RequestGet (GroupMembersUrl group_id 50 i)))) →
  P (Call ResponseJson) →
  emits P (fetch_group_members_loop fuel group_id start_index all_members).
Proof.
  intros HP HJ. revert start_index all_members.
  induction fuel as [|fuel IH]; intros start_index all_members; simpl.
  - apply emits_out_of_fuel.
  - solve_emits; done.
Qed.

Lemma attach_members_emits (P : event → Prop) (inner : nat) (group : json) :
  (∀ group_id i, P (Call (RequestGet (GroupMembersUrl group_id 50 i)))) →
  P (Call ResponseJson) →
  (∀ template args, P (Print template args)) →
  emits P (attach_members inner group).
Proof.
  intros HC HJ HP. unfold attach_members, fetch_group_members.
  apply emits_bind; [apply emits_lift | intros name].
  apply emits_bind; [by apply emits_print | intros _].
  apply emits_bind; [apply emits_lift | intros group_id].
  apply emits_bind; [by apply members_loop_emits | intros members].
  apply emits_lift.
Qed.

Lemma attach_members_terminates (inner : nat) (group : json) (w : world) :
  (length (script w) < inner)%nat →
  (attach_members inner group w).1 ≠ OutOfFuel.
Proof.
  intros Hlen. unfold attach_members, fetch_group_members.
  unfold mbind at 1, M_bind at 1, lift at 1.
  destruct (py_getitem group "name") as [name|]; [|done].
  unfold mbind at 1, M_bind at 1, print at 1.
  unfold mbind at 1, M_bind at 1, lift at 1.
  destruct (py_getitem group "id") as [group_id|]; [|done].
  unfold mbind at 1, M_bind at 1.
  pose proof (members_loop_terminates inner group_id 1 []
                (log (Print "---> Fetching members for group: {group['name']}"
                        [AVal name]) w) Hlen) as H.
  destruct (fetch_group_members_loop _ _ _ _ _) as [[members|e| |] w'];
    try done.
  unfold lift. by destruct (py_setitem _ _ _).
Qed.

Lemma attach_all_terminates (inner : nat) (groups : list json) (w : world) :
  (length (script w) < inner)%nat →
  (mapM (attach_members inner) groups w).1 ≠ OutOfFuel.
Proof.
  revert w. induction groups as [|group groups IH]; intros w Hlen; [done|].
  simpl. unfold mbind at 1, M_bind at 1.
  pose proof (attach_members_terminates inner group w Hlen) as H1.
  pose proof (attach_members_emits (λ _, True) inner group) as H2.
  specialize (H2 (λ _ _, I) I (λ _ _, I) w). apply steps_length in H2.
  destruct (attach_members inner group w) as [[group'|e| |] w1]; try done.
  unfold mbind at 1, M_bind at 1.
  assert (length (script w1) < inner)%nat as Hlen1 by (simpl in H2; lia).
  specialize (IH w1 Hlen1).
  by destruct (mapM (attach_members inner) groups w1) as [[groups'|e| |] w2].
Qed.

Lemma groups_loop_terminates (fuel inner : nat) (start_index : Z)
    (all_groups : list json) (w : world) :
  (length (script w) < fuel)%nat →
  (length (script w) < inner)%nat →
  (fetch_groups_loop fuel inner start_index all_groups w).1 ≠ OutOfFuel.
Proof.
  revert start_index all_groups w.
  induction fuel as [|fuel IH]; intros start_index all_groups w Hfuel Hinner;
    [lia|].
  destruct w as [[|[response|e] [|[data|e'] s]] t]; run; try done.
  destruct (py_get data "groups" (JArr [])) as [body|]; simpl; [|done].
  destruct (truthy body); simpl; [|done].
  destruct (py_iter body) as [groups|]; simpl; [|done].
  match goal with |- context [mapM _ _ ?w] => set (w1 := w) end.
  assert (length (script w1) < inner)%nat as Hw1 by (simpl in *; lia).
  pose proof (attach_all_terminates inner groups w1 Hw1) as H1.
  pose proof (emits_mapM (λ _, True) (attach_members inner) groups
                (λ group, attach_members_emits (λ _, True) inner group
                            (λ _ _, I) I (λ _ _, I)) w1) as H2.
  apply steps_length in H2.
  destruct (mapM (attach_members inner) groups w1) as [[groups'|e| |] w2];
    try done.
  apply IH; simpl in *; lia.
Qed.

(** ** The start index of every request *)

Lemma stride_seq {A : Type} (f : Z → A) (start stride : Z) (n : nat) :
  f start :: ((λ i : nat, f (start + stride + stride * Z.of_nat i)%Z) <$> seq 0 n) =
  (λ i : nat, f (start + stride * Z.of_nat i)%Z) <$> seq 0 (S n).
Proof.
  simpl. f_equal; [f_equal; lia|].
  rewrite <-fmap_S_seq, <-list_fmap_compose.
  apply list_fmap_ext. intros _ i _. simpl. f_equal. lia.
Qed.

Lemma members_loop_requests (fuel : nat) (group_id : json) (start_index : Z)
    (all_members : list json) (w : world) :
  ∃ evs n,
    trace (fetch_group_members_loop fuel group_id start_index all_members w).2
      = trace w ++ evs ∧
    requested evs =
      (λ k : nat, GroupMembersUrl group_id 50 (start_index + 50 * Z.of_nat k)%Z)
        <$> seq 0 n.
Proof.
  revert start_index all_members w.
  induction fuel as [|fuel IH]; intros start_index all_members w.
  { exists [], 0%nat. simpl. by rewrite app_nil_r. }
  assert (∀ evs : list event,
    requested evs = [GroupMembersUrl group_id 50 start_index] →
    requested evs =
      (λ k : nat, GroupMembersUrl group_id 50 (start_index + 50 * Z.of_nat k)%Z)
        <$> seq 0 1) as Hone.
  { intros evs ->. simpl. by rewrite Z.add_0_r. }
  destruct w as [[|[response|e] [|[data|e'] s]] t]; run;
    try (by eexists _, 1%nat; split; [rewrite <-?app_assoc; done|];
            apply Hone).
  destruct (py_get data "users" (JArr [])) as [body|]; simpl;
    [|by eexists _, 1%nat; split; [rewrite <-?app_assoc; done|];
          apply Hone].
  destruct (truthy body); simpl;
    [|by eexists _, 1%nat; split; [rewrite <-?app_assoc; done|];
          apply Hone].
  destruct (py_iter body) as [members|]; simpl;
    [|by eexists _, 1%nat; split; [rewrite <-?app_assoc; done|];
          apply Hone].
  match goal with
  | |- context [fetch_group_members_loop fuel group_id ?i ?a ?w] =>
      destruct (IH i a w) as (evs & n & -> & Hreq)
  end.
  eexists _, (S n). split; [simpl; rewrite <-!app_assoc; done|].
  simpl requested. rewrite Hreq.
  apply (stride_seq (GroupMembersUrl group_id 50)).
Qed.

Lemma group_list_requests_app (evs1 evs2 : list event) :
  group_list_requests (evs1 ++ evs2) =
  group_list_requests evs1 ++ group_list_requests evs2.
Proof. apply omap_app. Qed.

Lemma group_list_requests_none (evs : list event) :
  Forall not_group_list_request evs → group_list_requests evs = [].
Proof.
  induction 1 as [|ev evs Hev _ IH]; [done|].
  change (ev :: evs) with ([ev] ++ evs).
  by rewrite group_list_requests_app, Hev, IH.
Qed.

Lemma attach_all_no_group_list (inner : nat) (groups : list json) :
  emits not_group_list_request (mapM (attach_members inner) groups).
Proof.
  apply emits_mapM. intros group. by apply attach_members_emits.
Qed.

Lemma groups_loop_requests (fuel inner : nat) (start_index : Z)
    (all_groups : list json) (w : world) :
  ∃ evs n,
    trace (fetch_groups_loop fuel inner start_index all_groups w).2
      = trace w ++ evs ∧
    group_list_requests evs =
      (λ k : nat, (20, start_index + 20 * Z.of_nat k)%Z) <$> seq 0 n.
Proof.
  revert start_index all_groups w.
  induction fuel as [|fuel IH]; intros start_index all_groups w.
  { exists [], 0%nat. simpl. by rewrite app_nil_r. }
  assert (∀ evs : list event,
    group_list_requests evs = [(20, start_index)%Z] →
    group_list_requests evs =
      (λ k : nat, (20, start_index + 20 * Z.of_nat k)%Z) <$> seq 0 1) as Hone.
  { intros evs ->. simpl. by rewrite Z.add_0_r. }
  destruct w as [[|[response|e] [|[data|e'] s]] t]; run;
    try (by eexists _, 1%nat; split; [rewrite <-?app_assoc; done|];
            apply Hone).
  destruct (py_get data "groups" (JArr [])) as [body|]; simpl;
    [|by eexists _, 1%nat; split; [rewrite <-?app_assoc; done|];
          apply Hone].
  destruct (truthy body); simpl;
    [|by eexists _, 1%nat; split; [rewrite <-?app_assoc; done|];
          apply Hone].
  destruct (py_iter body) as [groups|]; simpl;
    [|by eexists _, 1%nat; split; [rewrite <-?app_assoc; done|];
          apply Hone].
  match goal with |- context [mapM _ _ ?w] => set (w1 := w) end.
  destruct (attach_all_no_group_list inner groups w1)
    as [_ (evs1 & Hevs1 & Hnone%group_list_requests_none)].
  destruct (mapM (attach_members inner) groups w1) as [[groups'|e| |] w2];
    cbn [snd fst] in *; subst w1; cbn [trace] in Hevs1;
    try (eexists _, 1%nat; split;
         [rewrite Hevs1, <-!app_assoc; done|];
         apply Hone; simpl; by rewrite Hnone).
  destruct (IH (start_index + 20)%Z (all_groups ++ groups') w2)
    as (evs & n & -> & Hreq).
  eexists _, (S n). split; [rewrite Hevs1; simpl; rewrite <-!app_assoc; done|].
  simpl. rewrite group_list_requests_app, Hnone, Hreq.
  apply (stride_seq (λ i, (20%Z, i))).
Qed.

Lemma groups_loop_pending (pages : list groups_page) (fuel inner : nat)
    (start_index : Z) (all_groups : list json) (t : list event) :
  Forall groups_page_ok pages →
  (length pages < fuel)%nat →
  Forall (λ p, Forall (λ run, (length run ≤ inner)%nat) (member_pages p))
    pages →
  (fetch_groups_loop fuel inner start_index all_groups
     (World (pages ≫= groups_page_script) t)).1 = Pending.
Proof.
  revert fuel start_index all_groups t.
  induction pages as [|p pages IH];
    intros fuel start_index all_groups t Hpages Hfuel Hinner.
  - destruct fuel as [|fuel]; [simpl in Hfuel; lia|]. by run.
  - destruct fuel as [|fuel]; [simpl in Hfuel; lia|].
    apply Forall_cons in Hpages as [Hp Hpages].
    apply Forall_cons in Hinner as [Hi Hinner].
    rewrite bind_cons.
    edestruct (groups_loop_full fuel inner start_index all_groups p)
      as (evs1 & ->); [done..|].
    apply IH; [done | simpl in Hfuel; lia | done].
Qed.

Lemma fetch_users_pending (more : list (json * json)) (fuel : nat)
    (t : list event) :
  Forall users_page_more more.*2 →
  (length more < fuel)%nat →
  (fetch_users fuel (World (served more) t)).1 = Pending.
Proof.
  intros Hmore Hfuel. unfold fetch_users.
  unfold mbind at 1, M_bind at 1, print at 1, log. cbn [script trace].
  unfold mbind at 1, M_bind at 1.
  pose proof (users_loop_pending more fuel users_url []
                (t ++ [Print "Fetching all users..." []])
                eq_refl Hmore Hfuel) as H.
  by destruct (fetch_users_loop _ _ _ _) as [[users|e| |] w']; simplify_eq/=.
Qed.

Lemma fetch_groups_pending (pages : list groups_page) (fuel : nat)
    (t : list event) :
  Forall groups_page_ok pages →
  (length pages < fuel)%nat →
  Forall (λ p, Forall (λ run, (length run ≤ fuel)%nat) (member_pages p))
    pages →
  (fetch_groups fuel (World (pages ≫= groups_page_script) t)).1 = Pending.
Proof.
  intros Hpages Hfuel Hinner. unfold fetch_groups.
  unfold mbind at 1, M_bind at 1, print at 1, log. cbn [script trace].
  unfold mbind at 1, M_bind at 1.
  pose proof (groups_loop_pending pages fuel fuel 1 []
                (t ++ [Print "Fetching all groups..." []])
                Hpages Hfuel Hinner) as H.
  by destruct (fetch_groups_loop _ _ _ _ _) as [[groups|e| |] w'];
    simplify_eq/=.
Qed.

Lemma fetch_users_terminates (fuel : nat) (w : world) :
  (length (script w) < fuel)%nat → (fetch_users fuel w).1 ≠ OutOfFuel.
Proof.
  intros Hfuel. unfold fetch_users.
  unfold mbind at 1, M_bind at 1, print at 1.
  unfold mbind at 1, M_bind at 1.
  pose proof (users_loop_terminates fuel users_url []
                (log (Print "Fetching all users..." []) w) Hfuel) as H.
  by destruct (fetch_users_loop _ _ _ _) as [[users|e| |] w'].
Qed.

Lemma fetch_group_members_terminates (fuel : nat) (group_id : json)
    (w : world) :
  (length (script w) < fuel)%nat →
  (fetch_group_members fuel group_id w).1 ≠ OutOfFuel.
Proof. apply members_loop_terminates. Qed.

Lemma fetch_groups_terminates (fuel : nat) (w : world) :
  (length (script w) < fuel)%nat → (fetch_groups fuel w).1 ≠ OutOfFuel.
Proof.
  intros Hfuel. unfold fetch_groups.
  unfold mbind at 1, M_bind at 1, print at 1.
  unfold mbind at 1, M_bind at 1.
  pose proof (groups_loop_terminates fuel fuel 1 []
                (log (Print "Fetching all groups..." []) w) Hfuel Hfuel) as H.
  by destruct (fetch_groups_loop _ _ _ _ _) as [[groups|e| |] w'].
Qed.

Lemma fetch_groups_requests (fuel : nat) (w : world) :
  ∃ evs n,
    trace (fetch_groups fuel w).2 = trace w ++ evs ∧
    group_list_requests evs =
      (λ k : nat, (20, 1 + 20 * Z.of_nat k)%Z) <$> seq 0 n.
Proof.
  unfold fetch_groups.
  unfold mbind at 1, M_bind at 1, print at 1.
  unfold mbind at 1, M_bind at 1.
  destruct (groups_loop_requests fuel fuel 1 []
              (log (Print "Fetching all groups..." []) w))
    as (evs & n & Hevs & Hreq).
  destruct (fetch_groups_loop _ _ _ _ _) as [[groups|e| |] w'];
    simpl in Hevs; run; rewrite Hevs; eexists _, n;
    (split; [by rewrite <-!app_assoc|]); simpl; try done.
  by rewrite group_list_requests_app, Hreq, app_nil_r.
Qed.

Lemma attached_spec (p : groups_page) :
  groups_page_ok p →
  Forall2 (λ group group',
             ∃ members, py_setitem group "members" (JArr members) = Ok group')
    (records "groups" (page_body p)) (attached p).
Proof.
  intros [_ H]. unfold attached.
  induction H as [|group pages groups runs ([name Hname] & _ & _) _ IH];
    simpl; constructor; [|done].
  unfold with_members. destruct group; try done. simpl. eauto.
Qed.

(** ** The requests of a complete run *)

Lemma requested_member_requests (group_id : json) (start_index : Z)
    (k : nat) :
  requested (member_requests group_id start_index k) =
  (λ i : nat, GroupMembersUrl group_id 50 (start_index + 50 * Z.of_nat i)%Z)
    <$> seq 0 k.
Proof.
  revert start_index. induction k as [|k IH]; intros start_index; [done|].
  change (requested (member_requests group_id start_index (S k))) with
    (GroupMembersUrl group_id 50 start_index ::
     requested (member_requests group_id (start_index + 50) k)).
  rewrite IH. apply (stride_seq (GroupMembersUrl group_id 50)).
Qed.

Lemma attach_all_run_quiet (inner : nat) (groups : list json)
    (runs : list (list (json * json))) (rest : list reply) (t : list event) :
  Forall2 (λ group pages,
             is_Some (field "name" group) ∧ is_Some (field "id" group) ∧
             members_dialogue pages) groups runs →
  Forall (λ pages, (length pages ≤ inner)%nat) runs →
  ∃ evs,
    mapM (attach_members inner) groups (World ((runs ≫= served) ++ rest) t) =
    (Returned
       (zip_with (λ group pages,
                    with_members group (pages.*2 ≫= records "users"))
          groups runs),
     World rest (t ++ evs)) ∧
    group_list_requests evs = [].
Proof.
  intros Hruns Hlen.
  destruct (attach_all_run inner groups runs rest t Hruns Hlen) as (evs & H).
  destruct (attach_all_no_group_list inner groups
              (World ((runs ≫= served) ++ rest) t))
    as [_ (evs' & Hevs' & Hnone)].
  rewrite H in Hevs'. simpl in Hevs'. apply app_inv_head in Hevs' as <-.
  exists evs. split; [done | by apply group_list_requests_none].
Qed.

Lemma groups_loop_full_requests (fuel inner : nat) (start_index : Z)
    (all_groups : list json) (p : groups_page) (s : list reply)
    (t : list event) :
  groups_page_ok p →
  Forall (λ pages, (length pages ≤ inner)%nat) (member_pages p) →
  ∃ evs,
    fetch_groups_loop (S fuel) inner start_index all_groups
      (World (groups_page_script p ++ s) t) =
    fetch_groups_loop fuel inner (start_index + 20) (all_groups ++ attached p)
      (World s (t ++ evs)) ∧
    group_list_requests evs = [(20%Z, start_index)].
Proof.
  intros [(body & Hget & Ht & Hit)%page_full_records Hruns] Hlen.
  destruct p as [response data runs]. simpl in *.
  unfold groups_page_script. cbn [page_response page_body member_pages].
  lazy [fetch_groups_loop]; fold fetch_groups_loop.
  unfold mbind at 1, M_bind at 1, print at 1, log.
  unfold mbind at 1, M_bind at 1, await at 1. cbn [script trace app].
  unfold mbind at 1, M_bind at 1, await at 1. cbn [script trace app].
  unfold mbind at 1, M_bind at 1, lift at 1. rewrite Hget.
  rewrite Ht. cbn [negb].
  unfold mbind at 1, M_bind at 1, lift at 1. rewrite Hit.
  unfold mbind at 1, M_bind at 1.
  edestruct (attach_all_run_quiet inner (records "groups" data) runs s)
    as (evs & -> & Hquiet); [done..|].
  unfold attached. cbn [page_body member_pages].
  eexists. split; [by rewrite <-!app_assoc|].
  simpl. by rewrite Hquiet.
Qed.

Lemma groups_loop_run_requests (pages : list groups_page)
    (last : json * json) (fuel inner : nat) (start_index : Z)
    (all_groups : list json) (rest : list reply) (t : list event) :
  Forall groups_page_ok pages →
  page_empty "groups" last.2 →
  (length pages < fuel)%nat →
  Forall (λ p, Forall (λ run, (length run ≤ inner)%nat) (member_pages p))
    pages →
  ∃ evs,
    fetch_groups_loop fuel inner start_index all_groups
      (World ((pages ≫= groups_page_script) ++ served [last] ++ rest) t) =
    (Returned (all_groups ++ (pages ≫= attached)), World rest (t ++ evs)) ∧
    group_list_requests evs =
      (λ k : nat, (20, start_index + 20 * Z.of_nat k)%Z)
        <$> seq 0 (S (length pages)).
Proof.
  revert fuel start_index all_groups t.
  induction pages as [|p pages IH];
    intros fuel start_index all_groups t Hpages Hlast Hfuel Hinner.
  - destruct fuel as [|fuel]; [simpl in Hfuel; lia|].
    destruct last as [response data]. rewrite app_nil_l, served_cons.
    destruct (groups_loop_empty fuel inner start_index all_groups response
                data (served [] ++ rest) t Hlast) as (evs & -> & Hreq).
    exists evs. rewrite app_nil_r. split; [done|].
    rewrite Hreq. simpl. by rewrite Z.add_0_r.
  - destruct fuel as [|fuel]; [simpl in Hfuel; lia|].
    apply Forall_cons in Hpages as [Hp Hpages].
    apply Forall_cons in Hinner as [Hi Hinner].
    rewrite bind_cons, <-app_assoc.
    edestruct (groups_loop_full_requests fuel inner start_index all_groups p)
      as (evs1 & -> & Hreq1); [done..|].
    edestruct (IH fuel (start_index + 20)%Z) as (evs2 & -> & Hreq2);
      [done | done | simpl in Hfuel; lia | done |].
    exists (evs1 ++ evs2). split; [by rewrite <-!app_assoc|].
    rewrite group_list_requests_app, Hreq1, Hreq2.
    apply (stride_seq (λ i, (20%Z, i))).
Qed.

Lemma fetch_groups_run_requests (pages : list groups_page)
    (last : json * json) (fuel : nat) (rest : list reply) (t : list event) :
  Forall groups_page_ok pages →
  page_empty "groups" last.2 →
  (length pages < fuel)%nat →
  Forall (λ p, Forall (λ run, (length run ≤ fuel)%nat) (member_pages p))
    pages →
  ∃ evs,
    trace (fetch_groups fuel
             (World ((pages ≫= groups_page_script) ++ served [last] ++ rest)
                t)).2 = t ++ evs ∧
    group_list_requests evs =
      (λ k : nat, (20, 1 + 20 * Z.of_nat k)%Z) <$> seq 0 (S (length pages)).
Proof.
  intros Hpages Hlast Hfuel Hinner. unfold fetch_groups.
  unfold mbind at 1, M_bind at 1, print at 1, log. cbn [script trace].
  unfold mbind at 1, M_bind at 1.
  edestruct (groups_loop_run_requests pages last fuel fuel 1 [] rest)
    as (evs & -> & Hreq); [done..|].
  run. eexists. split; [by rewrite <-!app_assoc|].
  simpl. rewrite group_list_requests_app, Hreq. simpl.
  by rewrite app_nil_r.
Qed.

(** * Pagination: the claims *)

(** C2. Every pagination loop ends exactly on end-of-collection input.
    [fetch_users] returns at the first page without a next link, having
    used up exactly the replies up to that page, and is still waiting when
    every page so far carried a next link; [fetch_group_members] and
    [fetch_groups] return at the first page with an empty or absent body and
    are still waiting before it. On no finite script does a fetcher run
    forever: a bound above the length of the script is never exhausted. *)
Theorem pagination_terminates (fuel : nat) :
  (∀ more last rest t,
     Forall users_page_more more.*2 → users_page_last last.2 →
     (S (length more) < fuel)%nat →
     (∃ users w',
        fetch_users fuel (World (served (more ++ [last]) ++ rest) t) =
          (Returned users, w') ∧ script w' = rest) ∧
     (fetch_users fuel (World (served more) t)).1 = Pending) ∧
  (∀ group_id full last rest t,
     Forall (page_full "users") full.*2 → page_empty "users" last.2 →
     (length full < fuel)%nat →
     (∃ members w',
        fetch_group_members fuel group_id
          (World (served (full ++ [last]) ++ rest) t) =
          (Returned members, w') ∧ script w' = rest) ∧
     (fetch_group_members fuel group_id (World (served full) t)).1 = Pending) ∧
  (∀ pages last rest t,
     Forall groups_page_ok pages → page_empty "groups" last.2 →
     (length pages < fuel)%nat →
     Forall (λ p, Forall (λ run, (length run ≤ fuel)%nat) (member_pages p))
       pages →
     (∃ groups w',
        fetch_groups fuel
          (World ((pages ≫= groups_page_script) ++ served [last] ++ rest) t) =
          (Returned groups, w') ∧ script w' = rest) ∧
     (fetch_groups fuel (World (pages ≫= groups_page_script) t)).1 = Pending) ∧
  (∀ w group_id,
     (length (script w) < fuel)%nat →
     (fetch_users fuel w).1 ≠ OutOfFuel ∧
     (fetch_group_members fuel group_id w).1 ≠ OutOfFuel ∧
     (fetch_groups fuel w).1 ≠ OutOfFuel).
Proof.
  split; [|split; [|split]].
  - intros more last rest t Hmore Hlast Hfuel. split.
    + destruct (fetch_users_run more last fuel rest t) as (evs & -> & _);
        [done..|]. by eexists _, _.
    + apply fetch_users_pending; [done | lia].
  - intros group_id full last rest t Hfull Hlast Hfuel. split.
    + rewrite fetch_group_members_run by done. by eexists _, _.
    + by apply members_loop_pending.
  - intros pages last rest t Hpages Hlast Hfuel Hinner. split.
    + destruct (fetch_groups_run pages last fuel rest t) as (evs & ->);
        [done..|]. by eexists _, _.
    + by apply fetch_groups_pending.
  - intros w group_id Hfuel. split; [|split].
    + by apply fetch_users_terminates.
    + by apply fetch_group_members_terminates.
    + by apply fetch_groups_terminates.
Qed.

Lemma pagination_terminates_witness :
  (∃ users w',
     fetch_users 3
       (World (served ([(Sample.response, Sample.users_page1)] ++
                       [(Sample.response, Sample.users_page2)]) ++ []) []) =
       (Returned users, w') ∧ script w' = []) ∧
  (∃ members w',
     fetch_group_members 2 (JStr "g1")
       (World (served ([(JNull, Sample.members_page [Sample.member "u1" "Alice"])] ++
                       [(JNull, Sample.members_page [])]) ++ []) []) =
       (Returned members, w') ∧ script w' = []) ∧
  (∃ groups w',
     fetch_groups 2
       (World (([Sample.groups_page1] ≫= groups_page_script) ++
               served [(JNull, JObj [])] ++ []) []) =
       (Returned groups, w') ∧ script w' = []).
Proof.
  split; [|split].
  - apply (pagination_terminates 3).
    + repeat constructor. eexists _, _. repeat split; reflexivity.
    + eexists _, _. repeat split; reflexivity.
    + simpl. lia.
  - apply (pagination_terminates 2).
    + repeat constructor. eexists _, _. repeat split; reflexivity.
    + eexists. split; reflexivity.
    + simpl. lia.
  - apply (pagination_terminates 2).
    + repeat constructor.
      * eexists _, _. repeat split; reflexivity.
      * simpl. eauto.
      * simpl. eauto.
      * eexists [_], _. split; [reflexivity|]. split.
        -- repeat constructor. eexists _, _. repeat split; reflexivity.
        -- eexists. split; reflexivity.
      * simpl. eauto.
      * simpl. eauto.
      * eexists [], _. split; [reflexivity|]. split.
        -- constructor.
        -- eexists. split; reflexivity.
    + eexists. split; reflexivity.
    + simpl. lia.
    + repeat constructor; simpl; lia.
Defined.

(** C3. The list a fetcher returns is the in-order concatenation of the
    record lists of the pages it received: the users of every page up to
    and including the one without a next link, the members of every page
    before the empty one, and the groups of every page before the empty
    one, each group being the record of the page with its [members] key
    set. *)
Theorem pagination_concatenates (fuel : nat) :
  (∀ more last rest t,
     Forall users_page_more more.*2 → users_page_last last.2 →
     (S (length more) < fuel)%nat →
     (fetch_users fuel (World (served (more ++ [last]) ++ rest) t)).1 =
     Returned ((more ++ [last]).*2 ≫= records "data")) ∧
  (∀ group_id full last rest t,
     Forall (page_full "users") full.*2 → page_empty "users" last.2 →
     (length full < fuel)%nat →
     (fetch_group_members fuel group_id
        (World (served (full ++ [last]) ++ rest) t)).1 =
     Returned (full.*2 ≫= records "users")) ∧
  (∀ pages last rest t,
     Forall groups_page_ok pages → page_empty "groups" last.2 →
     (length pages < fuel)%nat →
     Forall (λ p, Forall (λ run, (length run ≤ fuel)%nat) (member_pages p))
       pages →
     (fetch_groups fuel
        (World ((pages ≫= groups_page_script) ++ served [last] ++ rest) t)).1 =
     Returned (pages ≫= attached) ∧
     Forall (λ p,
               Forall2 (λ group group',
                          ∃ members,
                            py_setitem group "members" (JArr members) =
                            Ok group')
                 (records "groups" (page_body p)) (attached p)) pages).
Proof.
  split; [|split].
  - intros more last rest t Hmore Hlast Hfuel.
    by destruct (fetch_users_run more last fuel rest t) as (evs & -> & _).
  - intros group_id full last rest t Hfull Hlast Hfuel.
    by rewrite fetch_group_members_run.
  - intros pages last rest t Hpages Hlast Hfuel Hinner. split.
    + by destruct (fetch_groups_run pages last fuel rest t) as (evs & ->).
    + eapply Forall_impl; [exact Hpages|]. apply attached_spec.
Qed.

Lemma pagination_concatenates_witness :
  (fetch_users 3
     (World (served ([(Sample.response, Sample.users_page1)] ++
                     [(Sample.response, Sample.users_page2)]) ++ []) [])).1 =
    Returned [Sample.alice; Sample.bob; Sample.carol] ∧
  (fetch_group_members 2 (JStr "g1")
     (World (served ([(JNull, Sample.members_page [Sample.member "u1" "Alice"])] ++
                     [(JNull, Sample.members_page [])]) ++ []) [])).1 =
    Returned [Sample.member "u1" "Alice"] ∧
  (fetch_groups 2
     (World (([Sample.groups_page1] ≫= groups_page_script) ++
             served [(JNull, JObj [])] ++ []) [])).1 =
    Returned
      [JObj [("id", JStr "g1"); ("name", JStr "Admins");
             ("description", JStr "a group");
             ("members", JArr [Sample.member "u1" "Alice";
                               Sample.member "u9" "Zed"])];
       JObj [("id", JStr "g2"); ("name", JStr "Staff");
             ("description", JStr "a group"); ("members", JArr [])]].
Proof.
  split; [|split].
  - apply (pagination_concatenates 3).
    + repeat constructor. eexists _, _. repeat split; reflexivity.
    + eexists _, _. repeat split; reflexivity.
    + simpl. lia.
  - apply (pagination_concatenates 2).
    + repeat constructor. eexists _, _. repeat split; reflexivity.
    + eexists. split; reflexivity.
    + simpl. lia.
  - apply (pagination_concatenates 2).
    + repeat constructor.
      * eexists _, _. repeat split; reflexivity.
      * simpl. eauto.
      * simpl. eauto.
      * eexists [_], _. split; [reflexivity|]. split.
        -- repeat constructor. eexists _, _. repeat split; reflexivity.
        -- eexists. split; reflexivity.
      * simpl. eauto.
      * simpl. eauto.
      * eexists [], _. split; [reflexivity|]. split.
        -- constructor.
        -- eexists. split; reflexivity.
    + eexists. split; reflexivity.
    + simpl. lia.
    + repeat constructor; simpl; lia.
Defined.

(** C10. The offset loops advance the cursor by a fixed stride whatever
    the pages hold. When the server answers with non-empty pages and then
    an empty one, [fetch_group_members] makes one request per page, the
    [k]-th of them ([k = 0, 1, ...]) with start index [1 + 50 * k], and
    [fetch_groups] makes one request for the group list per page, the [k]-th
    with start index [1 + 20 * k]: each non-empty page, of whatever size, is
    followed by a request 50 (or 20) further on. On any other script, the
    requests made up to the point the loop stops or fails carry these same
    start indices. *)
Theorem pagination_stride (fuel : nat) (group_id : json) :
  (∀ full last rest t,
     Forall (page_full "users") full.*2 → page_empty "users" last.2 →
     (length full < fuel)%nat →
     ∃ evs,
       trace (fetch_group_members fuel group_id
                (World (served (full ++ [last]) ++ rest) t)).2 = t ++ evs ∧
       requested evs =
         (λ k : nat, GroupMembersUrl group_id 50 (1 + 50 * Z.of_nat k)%Z)
           <$> seq 0 (S (length full))) ∧
  (∀ pages last rest t,
     Forall groups_page_ok pages → page_empty "groups" last.2 →
     (length pages < fuel)%nat →
     Forall (λ p, Forall (λ run, (length run ≤ fuel)%nat) (member_pages p))
       pages →
     ∃ evs,
       trace (fetch_groups fuel
                (World ((pages ≫= groups_page_script) ++ served [last] ++ rest)
                   t)).2 = t ++ evs ∧
       group_list_requests evs =
         (λ k : nat, (20, 1 + 20 * Z.of_nat k)%Z)
           <$> seq 0 (S (length pages))) ∧
  (∀ w,
     (∃ evs n,
        trace (fetch_group_members fuel group_id w).2 = trace w ++ evs ∧
        requested evs =
          (λ k : nat, GroupMembersUrl group_id 50 (1 + 50 * Z.of_nat k)%Z)
            <$> seq 0 n) ∧
     (∃ evs n,
        trace (fetch_groups fuel w).2 = trace w ++ evs ∧
        group_list_requests evs =
          (λ k : nat, (20, 1 + 20 * Z.of_nat k)%Z) <$> seq 0 n)).
Proof.
  split; [|split].
  - intros full last rest t Hfull Hlast Hfuel.
    rewrite fetch_group_members_run by done.
    eexists. split; [done|]. apply requested_member_requests.
  - intros pages last rest t Hpages Hlast Hfuel Hinner.
    by apply fetch_groups_run_requests.
  - intros w.
    split; [apply members_loop_requests | apply fetch_groups_requests].
Qed.

Lemma pagination_stride_witness :
  (∃ evs,
     trace (fetch_group_members 4 (JStr "g1")
              (World (served
                        ([(JNull, Sample.members_page
                                    [Sample.member "u1" "Alice";
                                     Sample.member "u2" "Bob"]);
                          (JNull, Sample.members_page
                                    [Sample.member "u3" "Carol"]);
                          (JNull, Sample.members_page
                                    [Sample.member "u4" "Dan";
                                     Sample.member "u5" "Eve";
                                     Sample.member "u6" "Fay"])] ++
                         [(JNull, Sample.members_page [])]) ++ []) [])).2 =
       [] ++ evs ∧
     requested evs =
       (λ k : nat, GroupMembersUrl (JStr "g1") 50 (1 + 50 * Z.of_nat k)%Z)
         <$> seq 0 4) ∧
  (∃ evs,
     trace (fetch_groups 2
              (World (([Sample.groups_page1] ≫= groups_page_script) ++
                      served [(JNull, JObj [])] ++ []) [])).2 = [] ++ evs ∧
     group_list_requests evs =
       (λ k : nat, (20, 1 + 20 * Z.of_nat k)%Z) <$> seq 0 2).
Proof.
  split.
  - apply (pagination_stride 4 (JStr "g1")).
    + repeat constructor; eexists _, _; repeat split; reflexivity.
    + eexists. split; reflexivity.
    + simpl. lia.
  - apply (pagination_stride 2 JNull).
    + repeat constructor.
      * eexists _, _. repeat split; reflexivity.
      * simpl. eauto.
      * simpl. eauto.
      * eexists [_], _. split; [reflexivity|]. split.
        -- repeat constructor. eexists _, _. repeat split; reflexivity.
        -- eexists. split; reflexivity.
      * simpl. eauto.
      * simpl. eauto.
      * eexists [], _. split; [reflexivity|]. split.
        -- constructor.
        -- eexists. split; reflexivity.
    + eexists. split; reflexivity.
    + simpl. lia.
    + repeat constructor; simpl; lia.
Defined.

(** Three pages of members of unequal sizes are requested at 1, 51 and
    101, the empty fourth page at 151. *)
Example pagination_stride_sample :
  requested
    (trace
       (fetch_group_members 4 (JStr "g1")
          (World (served
                    [(JNull, Sample.members_page
                               [Sample.member "u1" "Alice";
                                Sample.member "u2" "Bob"]);
                     (JNull, Sample.members_page [Sample.member "u3" "Carol"]);
                     (JNull, Sample.members_page
                               [Sample.member "u4" "Dan";
                                Sample.member "u5" "Eve";
                                Sample.member "u6" "Fay"]);
                     (JNull, Sample.members_page [])]) [])).2) =
  [GroupMembersUrl (JStr "g1") 50 1; GroupMembersUrl (JStr "g1") 50 51;
   GroupMembersUrl (JStr "g1") 50 101; GroupMembersUrl (JStr "g1") 50 151].
Proof. reflexivity. Qed.

(** * [save_to_json] *)

Lemma dict_get_set_ne (k k' : string) (v : json) (d : list (string * json)) :
  k ≠ k' → dict_get k' (dict_set k v d) = dict_get k' d.
Proof.
  intros Hne. induction d as [|[k0 v0] d IH]; simpl.
  - by rewrite (proj2 (String.eqb_neq k k')).
  - destruct (String.eqb_spec k0 k) as [->|Hk0]; simpl.
    + by rewrite (proj2 (String.eqb_neq k k')).
    + by rewrite IH.
Qed.

Lemma dict_get_set_eq (k : string) (v : json) (d : list (string * json)) :
  dict_get k (dict_set k v d) = Some v.
Proof.
  induction d as [|[k0 v0] d IH]; simpl.
  - by rewrite String.eqb_refl.
  - destruct (String.eqb_spec k0 k) as [->|Hk0]; simpl.
    + by rewrite String.eqb_refl.
    + by rewrite (proj2 (String.eqb_neq k0 k)).
Qed.

(** A truthy and a falsy value never share a dictionary key. *)
Lemma truthy_key_ne (v v' : json) (k : pykey) :
  truthy v = true → truthy v' = false →
  hash_key v = Ok k → hash_key v' = Ok k → False.
Proof.
  destruct v as [|[]|z|s| |], v' as [|[]|z'|s'| |]; simpl; try done;
    intros Ht Ht' Hk Hk'; simplify_eq; simpl in *; congruence.
Qed.

Lemma account_key_Some (user : json) (k : pykey) :
  account_key user = Some k ↔
  ∃ account_id,
    py_get user "accountId" JNull = Ok account_id ∧
    truthy account_id = true ∧ hash_key account_id = Ok k.
Proof.
  unfold account_key. split.
  - destruct (py_get user "accountId" JNull) as [account_id|]; [|done].
    destruct (truthy account_id) eqn:Ht; [|done].
    destruct (hash_key account_id) as [k'|] eqn:Hk; [|done].
    intros [= ->]. by exists account_id.
  - intros (account_id & -> & -> & ->). done.
Qed.

Lemma falsy_key_unknown (users_data : list json) (account_id : json)
    (k : pykey) :
  truthy account_id = false → hash_key account_id = Ok k →
  ¬ known users_data k.
Proof.
  intros Ht Hk (user & _ & (id' & _ & Ht' & Hk')%account_key_Some)%Exists_exists.
  by eapply (truthy_key_ne id' account_id).
Qed.

(** A successful call, event by event. *)
Lemma save_to_json_eq (users_data groups_data : list json) (w : world) :
  save_to_json users_data groups_data w =
  match users_output users_data groups_data with
  | Raise e => (Raised e, World (script w) (trace w ++ not_saved))
  | Ok uo =>
      match groups_output groups_data with
      | Raise e =>
          (Raised e,
           World (script w)
             (trace w ++
              [Print "Finalizing and saving data with readable names..." [];
               Write "users.json" (JArr uo); Print "Saved users.json" []]))
      | Ok go => (Returned (), World (script w) (trace w ++ saved uo go))
      end
  end.
Proof.
  unfold save_to_json, users_output, membership_index, groups_output.
  unfold not_saved, saved. run.
  destruct (init_index users_data) as [m0|]; simpl; [|done].
  destruct (link_groups m0 groups_data) as [m|]; simpl; [|done].
  destruct (mapM (user_record m) users_data) as [uo|]; simpl; [|done].
  destruct (mapM group_record groups_data) as [go|]; simpl;
    by rewrite <-!app_assoc.
Qed.

Lemma py_get_Ok (o : json) (k : string) (default v : json) :
  py_get o k default = Ok v → ∃ d, o = JObj d.
Proof. destruct o; try done. eauto. Qed.

Lemma py_get_none (o : json) (k : string) (v : json) :
  py_get o k JNull = Ok v → get_or_none o k = v.
Proof. unfold get_or_none. by intros ->. Qed.

Lemma foldlM_Ok_Forall {A B : Type} (f : A → B → result A) (a a' : A)
    (l : list B) :
  foldlM f a l = Ok a' → Forall (λ x, ∃ a0 a1, f a0 x = Ok a1) l.
Proof.
  revert a. induction l as [|x l IH]; intros a H; simpl in H; [done|].
  inv_ok. constructor; eauto.
Qed.

(** What step 3 writes for a user, given the index. *)
Lemma user_record_Ok (users_data groups_data : list json) (m : index)
    (user r : json) :
  membership_index users_data groups_data = Ok m →
  user ∈ users_data →
  user_record m user = Ok r → r = user_json groups_data user.
Proof.
  intros Hm Hin H. unfold user_record in H.
  destruct user as [| | | | |d]; try done. simpl in H.
  apply bind_Ok in H as (k & Hk & [= <-]).
  unfold user_json, get_or_none. simpl. do 7 f_equal.
  rewrite (membership_index_lookup _ _ _ k Hm).
  unfold groups_of, account_key. simpl. rewrite Hk.
  destruct (truthy _) eqn:Ht.
  - rewrite decide_True; [done|].
    apply Exists_exists. eexists. split; [done|].
    unfold account_key. simpl. by rewrite Ht, Hk.
  - rewrite decide_False; [done|]. by eapply falsy_key_unknown.
Qed.

Lemma user_records_Ok (users_data groups_data : list json) (m : index)
    (us uo : list json) :
  membership_index users_data groups_data = Ok m →
  us ⊆ users_data →
  Forall2 (λ user r, user_record m user = Ok r) us uo →
  uo = user_json groups_data <$> us.
Proof.
  intros Hm Hsub H.
  induction H as [|user r us uo Hr _ IH]; [done|].
  simpl. f_equal.
  - eapply user_record_Ok; [done | apply Hsub; left | done].
  - apply IH. intros user' Hin. apply Hsub. by right.
Qed.

(** [users_output]: one promised record per user, in order. *)
Lemma users_output_Ok (users_data groups_data uo : list json) :
  users_output users_data groups_data = Ok uo →
  uo = user_json groups_data <$> users_data.
Proof.
  unfold users_output. intros (m & Hm & H)%bind_Ok.
  apply mapM_Ok_Forall2 in H. by eapply user_records_Ok.
Qed.

Lemma display_names_Ok (members names : list json) :
  mapM (λ member, py_get member "displayName" JNull) members = Ok names →
  names = (λ member, get_or_none member "displayName") <$> members.
Proof.
  intros H%mapM_Ok_Forall2.
  induction H as [|member name members names Hname _ IH]; [done|].
  simpl. by rewrite (py_get_none _ _ _ Hname), IH.
Qed.

Lemma group_record_Ok (group r : json) :
  group_record group = Ok r → r = group_json group.
Proof.
  intros H. unfold group_record in H.
  destruct group as [| | | | |d]; try done. simpl in H.
  apply bind_Ok in H
    as (members & Hmembers & (names & Hnames%display_names_Ok & [= <-])%bind_Ok).
  unfold group_json, display_names, get_or_none. simpl.
  rewrite Hmembers. by subst names.
Qed.

(** [groups_output]: one promised record per group, in order. *)
Lemma groups_output_Ok (groups_data go : list json) :
  groups_output groups_data = Ok go → go = group_json <$> groups_data.
Proof.
  unfold groups_output. intros H%mapM_Ok_Forall2.
  induction H as [|group r groups_data go Hr _ IH]; [done|].
  simpl. by rewrite (group_record_Ok _ _ Hr), IH.
Qed.

(** Step 4 cannot fail once step 2 went through. *)
Lemma link_group_record (m m' : index) (group : json) :
  link_group m group = Ok m' → ∃ r, group_record group = Ok r.
Proof.
  unfold link_group, group_record. intros H.
  destruct group as [| | | | |d]; try done. simpl in *.
  apply bind_Ok in H as (members & Hmembers & H).
  rewrite Hmembers. simpl.
  apply foldlM_Ok_Forall in H.
  assert (∃ names,
    mapM (λ member, py_get member "displayName" JNull) members = Ok names)
    as [names ->]; [|by eexists].
  clear Hmembers. induction H as [|member members (m0 & m1 & Hm) _ IH].
  - by eexists.
  - destruct IH as [names IH]. unfold link_member, member_key in Hm.
    destruct member as [| | | | |md]; try done. simpl. rewrite IH.
    by eexists.
Qed.

Lemma users_output_groups_output (users_data groups_data uo : list json) :
  users_output users_data groups_data = Ok uo →
  ∃ go, groups_output groups_data = Ok go.
Proof.
  unfold users_output, membership_index, link_groups, groups_output.
  intros (m & (m0 & _ & H)%bind_Ok & _)%bind_Ok.
  apply foldlM_Ok_Forall in H.
  induction H as [|group groups_data (m1 & m2 & Hg) _ IH]; [by eexists|].
  destruct IH as [go IH], (link_group_record _ _ _ Hg) as [r Hr].
  simpl. rewrite Hr. simpl. rewrite IH. by eexists.
Qed.

(** Every call either writes both files, with the promised records, or
    raises before it writes anything. *)
Lemma save_to_json_outcome (users_data groups_data : list json) (w : world) :
  (save_to_json users_data groups_data w =
     (Returned (),
      World (script w)
        (trace w ++ saved (user_json groups_data <$> users_data)
                      (group_json <$> groups_data))) ∧
   users_output users_data groups_data =
     Ok (user_json groups_data <$> users_data) ∧
   groups_output groups_data = Ok (group_json <$> groups_data)) ∨
  (∃ e, save_to_json users_data groups_data w =
          (Raised e, World (script w) (trace w ++ not_saved)) ∧
        users_output users_data groups_data = Raise e).
Proof.
  rewrite save_to_json_eq.
  destruct (users_output users_data groups_data) as [uo|e] eqn:Hu.
  - destruct (users_output_groups_output _ _ _ Hu) as [go Hg].
    rewrite Hg. left.
    by rewrite (users_output_Ok _ _ _ Hu), (groups_output_Ok _ _ Hg).
  - right. by exists e.
Qed.

(** * [save_to_json]: what a caller can rely on *)

(** When [save_to_json] returns, it has used no reply of the driver and has
    written [users.json] and then [groups.json], one record per input
    record and in the input order: a user record holds id, name, email,
    last_active, status and groups, taken from the accountId, name, email,
    last_active_date and status of the input record and from the index; a
    group record holds id, name, description and members, the members being
    the display names of the members of the group, in their order. *)
Theorem save_writes_promised_records (users_data groups_data : list json)
    (w w' : world) :
  save_to_json users_data groups_data w = (Returned (), w') →
  script w' = script w ∧
  trace w' =
    trace w ++ saved (user_json groups_data <$> users_data)
                 (group_json <$> groups_data).
Proof.
  intros H.
  destruct (save_to_json_outcome users_data groups_data w)
    as [(Hs & _ & _)|(e & Hs & _)]; rewrite Hs in H; [|done].
  by injection H as <-.
Qed.

Lemma save_writes_promised_records_witness :
  script (save_to_json [Sample.alice; Cases.anonymous] [Cases.admins]
            (World [] [])).2 = script (World [] []) ∧
  trace (save_to_json [Sample.alice; Cases.anonymous] [Cases.admins]
           (World [] [])).2 =
    trace (World [] []) ++
    saved (user_json [Cases.admins] <$> [Sample.alice; Cases.anonymous])
      (group_json <$> [Cases.admins]).
Proof.
  apply (save_writes_promised_records [Sample.alice; Cases.anonymous]
           [Cases.admins] (World [] [])).
  reflexivity.
Defined.

(** In [users.json] the groups of a user hold a name exactly when the
    user's [accountId] is truthy and some group of that name lists a member
    with that id. *)
Theorem user_groups_membership (users_data groups_data : list json)
    (w w' : world) :
  save_to_json users_data groups_data w = (Returned (), w') →
  ∃ uo go,
    trace w' = trace w ++ saved uo go ∧
    Forall2 (λ user r,
               ∃ names,
                 field "groups" r = Some (JArr names) ∧
                 ∀ name,
                   name ∈ names ↔
                   ∃ k group,
                     account_key user = Some k ∧ group ∈ groups_data ∧
                     py_get group "name" JNull = Ok name ∧
                     has_member group k)
      users_data uo.
Proof.
  intros H.
  destruct (save_to_json_outcome users_data groups_data w)
    as [(Hs & _ & _)|(e & Hs & _)]; rewrite Hs in H; [|done].
  injection H as <-. eexists _, _. split; [done|].
  apply Forall2_fmap_r, Forall_Forall2_diag, Forall_forall.
  intros user _. exists (groups_of groups_data user). split; [done|].
  intros name. unfold groups_of.
  destruct (account_key user) as [k|]; split.
  - intros (group & (? & ?)%elem_of_occurrences & ?)%list_elem_of_bind.
    by exists k, group.
  - intros (k' & group & [= <-] & ? & ? & ?).
    apply list_elem_of_bind. exists group. split; [|done].
    by apply elem_of_occurrences.
  - by intros ?%not_elem_of_nil.
  - by intros (? & ? & ? & _).
Qed.

Lemma user_groups_membership_witness :
  ∃ uo go,
    trace (save_to_json [Sample.alice; Sample.bob] [Cases.admins]
             (World [] [])).2 =
      trace (World [] []) ++ saved uo go ∧
    Forall2 (λ user r,
               ∃ names,
                 field "groups" r = Some (JArr names) ∧
                 ∀ name,
                   name ∈ names ↔
                   ∃ k group,
                     account_key user = Some k ∧ group ∈ [Cases.admins] ∧
                     py_get group "name" JNull = Ok name ∧
                     has_member group k)
      [Sample.alice; Sample.bob] uo.
Proof.
  apply (user_groups_membership [Sample.alice; Sample.bob] [Cases.admins]
           (World [] [])).
  reflexivity.
Defined.

Lemma save_returned (users_data groups_data : list json) (w w' : world) :
  save_to_json users_data groups_data w = (Returned (), w') →
  w' = World (script w)
         (trace w ++ saved (user_json groups_data <$> users_data)
                       (group_json <$> groups_data)) ∧
  users_output users_data groups_data =
    Ok (user_json groups_data <$> users_data).
Proof.
  intros H.
  destruct (save_to_json_outcome users_data groups_data w)
    as [(Hs & Hu & _)|(e & Hs & _)]; rewrite Hs in H; [|done].
  by injection H as <-.
Qed.

(** Names are appended without a check for repetition: when a group lists
    the id of a user twice, the groups of that user in [users.json] hold a
    name twice. *)
Theorem repeated_member_repeats_name (users_data groups_data : list json)
    (w w' : world) (i : nat) (user group : json) (k : pykey)
    (members : list json) :
  save_to_json users_data groups_data w = (Returned (), w') →
  users_data !! i = Some user →
  account_key user = Some k →
  group ∈ groups_data →
  group_members group = Ok members →
  (2 ≤ count_key k members)%nat →
  ∃ uo go r names,
    trace w' = trace w ++ saved uo go ∧ uo !! i = Some r ∧
    field "groups" r = Some (JArr names) ∧ ¬ NoDup names.
Proof.
  intros [-> _]%save_returned Hi Hk Hgroup Hmembers Hcount.
  eexists _, _, (user_json groups_data user), (groups_of groups_data user).
  split; [done|]. split; [by rewrite list_lookup_fmap, Hi|].
  split; [done|]. unfold groups_of. rewrite Hk.
  apply list_elem_of_split in Hgroup as (g1 & g2 & ->).
  rewrite bind_app, bind_cons.
  intros [_ [_ [Hdup _]%NoDup_app]]%NoDup_app.
  unfold occurrences in Hdup. rewrite Hmembers in Hdup.
  assert (∃ d, group = JObj d) as [d ->].
  { unfold group_members in Hmembers.
    apply bind_Ok in Hmembers as (? & ?%py_get_Ok & _). done. }
  simpl in Hdup.
  destruct (count_key k members) as [|[|n]]; [lia..|].
  simpl in Hdup. apply NoDup_cons in Hdup as [Hnotin _].
  apply Hnotin. left.
Qed.

Lemma repeated_member_repeats_name_witness :
  ∃ uo go r names,
    trace (save_to_json [Sample.alice] [Cases.doubled] (World [] [])).2 =
      trace (World [] []) ++ saved uo go ∧
    uo !! 0%nat = Some r ∧
    field "groups" r = Some (JArr names) ∧ ¬ NoDup names.
Proof.
  apply (repeated_member_repeats_name [Sample.alice] [Cases.doubled]
           (World [] []) _ 0 Sample.alice Cases.doubled (KStr "u1")
           [Sample.member "u1" "Alice"; Sample.member "u1" "Alice"]).
  - reflexivity.
  - reflexivity.
  - reflexivity.
  - left.
  - reflexivity.
  - vm_compute. lia.
Defined.

(** A user whose [accountId] is missing, [None] or another falsy value is
    still written to [users.json], with that value as id and with no
    groups, whatever the groups list. *)
Theorem falsy_account_left_out (users_data groups_data : list json)
    (w w' : world) (i : nat) (user : json) :
  save_to_json users_data groups_data w = (Returned (), w') →
  users_data !! i = Some user →
  truthy (get_or_none user "accountId") = false →
  ∃ uo go r,
    trace w' = trace w ++ saved uo go ∧ uo !! i = Some r ∧
    field "id" r = Some (get_or_none user "accountId") ∧
    field "groups" r = Some (JArr []).
Proof.
  intros [-> _]%save_returned Hi Hfalsy.
  eexists _, _, (user_json groups_data user).
  split; [done|]. split; [by rewrite list_lookup_fmap, Hi|].
  split; [done|]. simpl. do 2 f_equal.
  unfold groups_of, account_key, get_or_none in *.
  destruct (py_get user "accountId" JNull); [|done]. by rewrite Hfalsy.
Qed.

Lemma falsy_account_left_out_witness :
  ∃ uo go r,
    trace (save_to_json [Sample.alice; Cases.anonymous] [Cases.admins]
             (World [] [])).2 =
      trace (World [] []) ++ saved uo go ∧
    uo !! 1%nat = Some r ∧
    field "id" r = Some (get_or_none Cases.anonymous "accountId") ∧
    field "groups" r = Some (JArr []).
Proof.
  apply (falsy_account_left_out [Sample.alice; Cases.anonymous]
           [Cases.admins] (World [] []) _ 1 Cases.anonymous);
    reflexivity.
Defined.

(** A single user record that is not a dict, or whose [accountId] is a list
    or a dict (an empty one included, which step 1 skips as falsy), makes
    [save_to_json] raise before any file is written. *)
Theorem unusable_account_aborts (users_data groups_data : list json)
    (w : world) (user : json) :
  user ∈ users_data →
  (∀ k, py_get user "accountId" JNull ≫= hash_key ≠ Ok k) →
  ∃ e,
    save_to_json users_data groups_data w =
    (Raised e, World (script w) (trace w ++ not_saved)).
Proof.
  intros Hin Hbad.
  destruct (save_to_json_outcome users_data groups_data w)
    as [(_ & Hu & _)|(e & Hs & _)]; [|by exists e].
  exfalso. unfold users_output in Hu.
  apply bind_Ok in Hu as (m & _ & Hu%mapM_Ok_Forall2).
  apply list_elem_of_lookup in Hin as [i Hi].
  destruct (Forall2_lookup_l _ _ _ _ _ Hu Hi) as (r & _ & Hr).
  unfold user_record in Hr.
  destruct user as [| | | | |d]; try done. simpl in *.
  apply bind_Ok in Hr as (k & Hk & _). by apply (Hbad k).
Qed.

Lemma unusable_account_aborts_witness :
  ∃ e,
    save_to_json [Sample.alice; Cases.odd] [Cases.admins] (World [] []) =
    (Raised e, World (script (World [] [])) (trace (World [] []) ++ not_saved)).
Proof.
  apply (unusable_account_aborts [Sample.alice; Cases.odd] [Cases.admins]
           (World [] []) Cases.odd).
  - right. left.
  - intros k. discriminate.
Defined.

(** * [main] of the export script *)





